(** * Waste-detection web application: detection post-processing and
      request handling

    A shallow embedding of [utils/detector.py] (class [WasteDetector]) and of
    the two detection routes of [app.py] ([/detect], [/detect_frame]).

    - Python [str] values are [string]s (sequences of bytes); [bytes] values
      are lists of [Byte.byte].
    - Python [dict]s whose iteration order is never observed are [gmap]s.
    - numpy arrays live in a heap of rasters addressed by locations, so that
      [frame.copy()] and the in-place drawing calls of OpenCV keep their
      aliasing behaviour.
    - The try/except structure of the handlers is kept by a state-and-
      exception monad over the machine state (file system, heap, the local
      variables of the running handler, and a log of the calls made to the
      outside world).
    - What the third-party libraries compute (model inference, image codecs,
      glyph rasterisation, [float()], [secure_filename], the order in which
      a set is iterated) is taken as a parameter of the development.
    - The two drawing functions of OpenCV are a parameter of the annotation
      loop: the detector runs it with OpenCV, which paints, and it can be
      run with a canvas that writes down the calls it gets.
    - A POST to [/detect] is served in two steps: Flask parses the body at
      the first use of [request.files] and may refuse it, and the view goes
      on with the form. *)

From stdpp Require Import gmap strings list fin_maps pretty.
From Stdlib Require Import Ascii QArith_base.

Local Open Scope Z_scope.

(** ** Python string helpers *)

(** [c in s] for a one-character [c]. *)
Fixpoint str_contains (c : ascii) (s : string) : bool :=
  match s with
  | EmptyString => false
  | String a r => if decide (a = c) then true else str_contains c r
  end.

(** [s.split(sep)] for a one-character separator: every separator cuts, and
    empty pieces are kept. *)
Fixpoint str_split (sep : ascii) (s : string) : list string :=
  match s with
  | EmptyString => [EmptyString]
  | String a r =>
      if decide (a = sep) then EmptyString :: str_split sep r
      else match str_split sep r with
           | [] => [String a EmptyString]
           | p :: ps => String a p :: ps
           end
  end.

(** The part of [s] that follows the last [sep], when [s] has one. *)
Fixpoint after_last (sep : ascii) (s : string) : option string :=
  match s with
  | EmptyString => None
  | String a r =>
      match after_last sep r with
      | Some t => Some t
      | None => if decide (a = sep) then Some r else None
      end
  end.

(** The part of [s] that precedes the last [sep], when [s] has one. *)
Fixpoint before_last (sep : ascii) (s : string) : option string :=
  match s with
  | EmptyString => None
  | String a r =>
      match before_last sep r with
      | Some h => Some (String a h)
      | None => if decide (a = sep) then Some EmptyString else None
      end
  end.

(** [s.rsplit(sep, 1)]: at most one cut, at the last separator. *)
Definition str_rsplit1 (sep : ascii) (s : string) : list string :=
  match before_last sep s, after_last sep s with
  | Some h, Some t => [h; t]
  | _, _ => [s]
  end.

(** [c.lower()] on a byte: only [A]..[Z] change. The bytes of a character
    outside of ASCII are kept: no such character becomes, in lower case, a
    letter that occurs in an allowed extension. *)
Definition ascii_lower (c : ascii) : ascii :=
  let n := nat_of_ascii c in
  if ((65 <=? n)%nat && (n <=? 90)%nat)%bool then ascii_of_nat (n + 32) else c.

Fixpoint str_lower (s : string) : string :=
  match s with
  | EmptyString => EmptyString
  | String a r => String (ascii_lower a) (str_lower r)
  end.

(** [sep.join(parts)]. *)
Fixpoint str_join (sep : string) (parts : list string) : string :=
  match parts with
  | [] => ""
  | [p] => p
  | p :: ps => p +:+ sep +:+ str_join sep ps
  end.

(** ** Exceptions *)

(** A raised exception: its class name and [str(e)]. *)
Record exn := Exn { exn_class : string; exn_str : string }.

Inductive result (A : Type) :=
| Ok (a : A)
| Raise (e : exn).
Arguments Ok {A} a.
Arguments Raise {A} e.

(** ** Rasters *)

(** One BGR pixel. *)
Definition pixel : Type := Z * Z * Z.

(** A numpy image array: a list of rows of pixels. *)
Abbreviation raster := (list (list pixel)).

(** [img.shape]: the number of rows and the length of each of them. *)
Definition shape (img : raster) : list nat := length <$> img.

(** Writing one pixel. OpenCV's drawing functions clip to the array: a
    coordinate outside of it writes nothing. *)
Definition set_pixel (color : pixel) (img : raster) (p : Z * Z) : raster :=
  let '(x, y) := p in
  if ((0 <=? x) && (0 <=? y))%bool
  then alter (λ row, <[Z.to_nat x := color]> row) (Z.to_nat y) img
  else img.

Definition paint (color : pixel) (pts : list (Z * Z)) (img : raster) : raster :=
  foldl (set_pixel color) img pts.

(** An axis-aligned rectangle given by two corners, as passed to
    [cv2.rectangle]. *)
Record rect := Rect { r_x1 : Z; r_y1 : Z; r_x2 : Z; r_y2 : Z }.

(** The pixel in row [i], column [j], if the array has one there. *)
Definition pixel_at (img : raster) (i j : nat) : option pixel :=
  img !! i ≫= (.!! j).

(** The integers [lo, lo+1, ..., hi]. *)
Definition Zrange (lo hi : Z) : list Z := seqZ lo (hi - lo + 1).

(** Whether the point [(x, y)] lies in the rectangle, corners included. *)
Definition in_rect (r : rect) (x y : Z) : Prop :=
  Z.min (r_x1 r) (r_x2 r) ≤ x ≤ Z.max (r_x1 r) (r_x2 r) ∧
  Z.min (r_y1 r) (r_y2 r) ≤ y ≤ Z.max (r_y1 r) (r_y2 r).

Global Instance in_rect_dec r x y : Decision (in_rect r x y).
Proof. unfold in_rect. apply _. Defined.

(** The points of a filled rectangle (thickness [-1]): both corners are
    included, whatever their order. *)
Definition filled_points (r : rect) : list (Z * Z) :=
  y ← Zrange (Z.min (r_y1 r) (r_y2 r)) (Z.max (r_y1 r) (r_y2 r));
  x ← Zrange (Z.min (r_x1 r) (r_x2 r)) (Z.max (r_x1 r) (r_x2 r));
  [(x, y)].

(** ** base64 (Python's [base64] and [binascii]) *)

Definition bytes : Type := list Byte.byte.

Definition byte_of_N (n : N) : Byte.byte :=
  default Byte.x00 (Byte.of_N (n mod 256)%N).

(** The value of a character of the base64 alphabet; [None] for every other
    character. *)
Definition b64_value (c : ascii) : option N :=
  let n := N_of_ascii c in
  if ((65 <=? n) && (n <=? 90))%N then Some (n - 65)%N
  else if ((97 <=? n) && (n <=? 122))%N then Some (n - 71)%N
  else if ((48 <=? n) && (n <=? 57))%N then Some (n + 4)%N
  else if (n =? 43)%N then Some 62%N
  else if (n =? 47)%N then Some 63%N
  else None.

Definition b64_char (v : N) : ascii :=
  if (v <? 26)%N then ascii_of_N (v + 65)
  else if (v <? 52)%N then ascii_of_N (v + 71)
  else if (v <? 62)%N then ascii_of_N (v - 4)
  else if (v =? 62)%N then "+"%char
  else "/"%char.

(** The decoder's registers: position in the current group of four, the
    bits left over from the previous character, the run of pad characters,
    and the output so far (most recent byte first). *)
Record b64_state := B64 {
  quad_pos : nat;
  leftchar : N;
  pads : nat;
  bin_data : bytes
}.

(** [binascii.a2b_base64] without [strict_mode]: characters outside of the
    alphabet are skipped, a complete pad sequence ends the input, and an
    incomplete last group is an error. *)
Fixpoint a2b_base64_loop (s : string) (st : b64_state) : b64_state + bytes :=
  match s with
  | EmptyString => inl st
  | String c r =>
      if decide (c = "="%char) then
        if decide (2 ≤ quad_pos st)%nat then
          if decide (4 ≤ quad_pos st + S (pads st))%nat
          then inr (bin_data st)
          else a2b_base64_loop r
                 (B64 (quad_pos st) (leftchar st) (S (pads st)) (bin_data st))
        else a2b_base64_loop r st
      else
        match b64_value c with
        | None => a2b_base64_loop r st
        | Some v =>
            a2b_base64_loop r
              match quad_pos st with
              | 0%nat => B64 1 v 0 (bin_data st)
              | 1%nat =>
                  B64 2 (N.land v 15) 0
                    (byte_of_N (N.lor (N.shiftl (leftchar st) 2) (N.shiftr v 4))
                       :: bin_data st)
              | 2%nat =>
                  B64 3 (N.land v 3) 0
                    (byte_of_N (N.lor (N.shiftl (leftchar st) 4) (N.shiftr v 2))
                       :: bin_data st)
              | _ =>
                  B64 0 0 0
                    (byte_of_N (N.lor (N.shiftl (leftchar st) 6) v) :: bin_data st)
              end
        end
  end.

Definition str_is_ascii (s : string) : bool :=
  forallb (λ b, (Byte.to_N b <? 128)%N) (String.list_byte_of_string s).

(** [base64.b64decode(s)] for a [str] argument, with the default
    [validate=False]. *)
Definition b64decode (s : string) : result bytes :=
  if negb (str_is_ascii s) then
    Raise (Exn "ValueError" "string argument should contain only ASCII characters")
  else
    match a2b_base64_loop s (B64 0 0 0 []) with
    | inr out => Ok (rev out)
    | inl st =>
        match quad_pos st with
        | 0%nat => Ok (rev (bin_data st))
        | 1%nat =>
            Raise (Exn "binascii.Error"
              ("Invalid base64-encoded string: number of data characters ("
               +:+ pretty (length (bin_data st) / 3 * 4 + 1)%nat
               +:+ ") cannot be 1 more than a multiple of 4"))
        | _ => Raise (Exn "binascii.Error" "Incorrect padding")
        end
    end.

(** [base64.b64encode(b).decode('utf-8')]. *)
Fixpoint b64encode (b : bytes) : string :=
  match b with
  | [] => ""
  | [x] =>
      let n := Byte.to_N x in
      String (b64_char (N.shiftr n 2))
        (String (b64_char (N.shiftl (N.land n 3) 4)) "==")
  | [x; y] =>
      let n := Byte.to_N x in
      let m := Byte.to_N y in
      String (b64_char (N.shiftr n 2))
        (String (b64_char (N.lor (N.shiftl (N.land n 3) 4) (N.shiftr m 4)))
           (String (b64_char (N.shiftl (N.land m 15) 2)) "="))
  | x :: y :: z :: r =>
      let n := Byte.to_N x in
      let m := Byte.to_N y in
      let k := Byte.to_N z in
      String (b64_char (N.shiftr n 2))
        (String (b64_char (N.lor (N.shiftl (N.land n 3) 4) (N.shiftr m 4)))
           (String (b64_char (N.lor (N.shiftl (N.land m 15) 2) (N.shiftr k 6)))
              (String (b64_char (N.land k 63)) (b64encode r))))
  end.

(** ** The outside world *)

(** One raw detection of the model: corner coordinates as the model reports
    them (fractional pixels), the class index and the confidence. *)
Record raw_box (float : Type) := RawBox {
  xyxy : Q * Q * Q * Q;
  box_cls : Q;
  box_conf : float
}.
Arguments RawBox {float} _ _ _.
Arguments xyxy {float} _.
Arguments box_cls {float} _.
Arguments box_conf {float} _.

(** What [cv2.imwrite] did: wrote the file and returned [True], returned
    [False] without writing, or raised before opening the destination (no
    encoder for the extension, empty image). *)
Inductive imwrite_result :=
| Written
| NotWritten
| WriteError (e : exn).

(** The collaborators that the repository calls but does not implement. A
    field that returns a [result] may raise. *)
Class Env := {
  (** Python floats, with the operations the code applies to them. *)
  float : Type;
  default_confidence : float;                  (* the literal 0.25 *)
  float_of_str : string → result float;         (* float(s) *)
  format_2f : float → string;                   (* f"{conf:.2f}" *)
  round4 : float → float;                       (* round(conf, 4) *)
  (** Python sets of strings: iterating over one gives its members, each
      once, in an order that the language leaves open. *)
  set_iteration : gset string → list string;
  set_iteration_perm : ∀ X, set_iteration X ≡ₚ elements X;
  (** werkzeug and the clock. *)
  secure_filename : string → string;
  time_ms : Z;                                  (* int(time.time() * 1000) *)
  (** The YOLO model: loading gives the class-name table, prediction gives
      for each result its boxes. *)
  yolo_load : string → result (gmap Z string);
  predict : raster → float → result (list (list (raw_box float)));
  (** OpenCV codecs and rasterisers. *)
  imread_decode : bytes → option raster;
  imdecode : bytes → result (option raster);
  imencode : string → raster → result bytes;
  imwrite_outcome : string → raster → imwrite_result;
  file_encoding : string → raster → bytes;      (* what imwrite puts in the file *)
  getTextSize : string → (Z * Z) * Z;           (* FONT_HERSHEY_SIMPLEX, 0.6, 2 *)
  stroke_points : rect → Z → list (Z * Z);      (* outline of given thickness *)
  text_points : string → Z * Z → list (Z * Z);  (* glyphs of putText *)
  (** The operating system: whether saving or removing a path fails. *)
  save_error : string → option exn;
  remove_error : string → option exn
}.

(** ** Machine state and the handler monad *)

Definition loc : Type := positive.

(** A call made to the outside world, in the order of the calls. The last
    two are written down only by the canvas [recorder] below. *)
Inductive event :=
| FileSave (path : string)
| PathExists (path : string)
| OsRemove (path : string)
| Imread (path : string)
| Imwrite (path : string)
| YoloLoad (path : string)
| Predict
| B64Decode (data : string)
| Imdecode
| Imencode
| CvRectangle (array : loc) (corners : rect) (color : pixel) (thickness : Z)
| CvPutText (array : loc) (text : string) (org : Z * Z) (color : pixel).

Record machine := Machine {
  fs : gmap string bytes;        (* files, by path *)
  heap : gmap loc raster;        (* numpy arrays *)
  locals : gmap string string;   (* local variables of the running handler *)
  log : list event
}.

Definition M (A : Type) : Type := machine → result A * machine.

Global Instance M_ret : MRet M := λ A a s, (Ok a, s).

Global Instance M_bind : MBind M := λ A B f m s,
  match m s with
  | (Ok a, s') => f a s'
  | (Raise e, s') => (Raise e, s')
  end.

Definition raise {A} (e : exn) : M A := λ s, (Raise e, s).

Definition lift {A} (r : result A) : M A := λ s, (r, s).

(** [try: body  except Exception as e: handler(e)]. The state reached when
    the exception was raised is the one the handler starts from. *)
Definition try_except {A} (body : M A) (handler : exn → M A) : M A := λ s,
  match body s with
  | (Ok a, s') => (Ok a, s')
  | (Raise e, s') => handler e s'
  end.

(** Reading the state. *)
Definition gets {A} (f : machine → A) : M A := λ s, (Ok (f s), s).

(** Changing the state. *)
Definition modify (f : machine → machine) : M unit := λ s, (Ok (), f s).

Definition emit (ev : event) : M unit := λ s,
  (Ok (), Machine (fs s) (heap s) (locals s) (log s ++ [ev])).

(** Entering a function: no local variable is bound yet. *)
Definition new_frame : M unit := λ s,
  (Ok (), Machine (fs s) (heap s) ∅ (log s)).

Definition assign (x v : string) : M unit := λ s,
  (Ok (), Machine (fs s) (heap s) (<[x := v]> (locals s)) (log s)).

(** Reading a local variable that no assignment has reached raises. *)
Definition var (x : string) : M string := λ s,
  match locals s !! x with
  | Some v => (Ok v, s)
  | None =>
      (Raise (Exn "UnboundLocalError"
                ("local variable '" +:+ x +:+ "' referenced before assignment")), s)
  end.

(** [for x in xs: ...], collecting what each round appends. *)
Fixpoint for_each {A B} (f : A → M B) (xs : list A) : M (list B) :=
  match xs with
  | [] => mret []
  | x :: xs' => y ← f x; ys ← for_each f xs'; mret (y :: ys)
  end.

(** A relation that every run of [m] satisfies between the state it starts
    in and the state it ends in, whatever the outcome. *)
Definition steps {A} (R : relation machine) (m : M A) : Prop :=
  ∀ s, R s (m s).2.

(** The log of calls only grows. *)
Definition log_grows (s s' : machine) : Prop := ∃ t, log s' = log s ++ t.

(** Neither the files nor the local variables change. *)
Definition keeps_files (s s' : machine) : Prop :=
  fs s' = fs s ∧ locals s' = locals s.

(** *** numpy arrays *)

Definition new_array (img : raster) : M loc := λ s,
  let l := fresh (dom (heap s)) in
  (Ok l, Machine (fs s) (<[l := img]> (heap s)) (locals s) (log s)).

Definition read_array (l : loc) : M raster := λ s,
  match heap s !! l with
  | Some img => (Ok img, s)
  | None => (Raise (Exn "ReferenceError" "no such array"), s)
  end.

(** [a.copy()]. *)
Definition copy_array (l : loc) : M loc :=
  img ← read_array l; new_array img.

(** An in-place drawing call on the array at [l]. *)
Definition draw (l : loc) (color : pixel) (pts : list (Z * Z)) : M unit := λ s,
  match heap s !! l with
  | Some img =>
      (Ok (), Machine (fs s) (<[l := paint color pts img]> (heap s)) (locals s) (log s))
  | None => (Raise (Exn "ReferenceError" "no such array"), s)
  end.

(** The two drawing functions of OpenCV that the annotator calls, each on
    an array:
    [cv2.rectangle(img, pt1, pt2, color, thickness)] and
    [cv2.putText(img, text, org, FONT_HERSHEY_SIMPLEX, 0.6, color, 2)]. *)
Record Canvas := {
  rectangle : loc → rect → pixel → Z → M unit;
  putText : loc → string → Z * Z → pixel → M unit
}.

(** OpenCV itself: both functions paint on the array, clipping to it; a
    negative thickness asks for a filled rectangle. *)
Definition cv2 `{Env} : Canvas := {|
  rectangle l r color thickness :=
    draw l color (if decide (thickness < 0) then filled_points r
                  else stroke_points r thickness);
  putText l text org color := draw l color (text_points text org)
|}.

(** A canvas that paints nothing and writes down the calls it gets, with
    their arguments. *)
Definition recorder : Canvas := {|
  rectangle l r color thickness := emit (CvRectangle l r color thickness);
  putText l text org color := emit (CvPutText l text org color)
|}.

(** What drawing on the array at [l] may change: the contents of that
    array, but not its shape, and nothing else. *)
Record only_draws (l : loc) (s s' : machine) : Prop := {
  draws_fs : fs s' = fs s;
  draws_locals : locals s' = locals s;
  draws_log : log s' = log s;
  draws_others : ∀ l', l' ≠ l → heap s' !! l' = heap s !! l';
  draws_shape : ∀ img, heap s !! l = Some img →
                  ∃ img', heap s' !! l = Some img' ∧ shape img' = shape img
}.

(** *** Files *)

(** [os.path.exists(path)]. *)
Definition path_exists (path : string) : M bool :=
  emit (PathExists path);;
  gets (λ s, bool_decide (is_Some (fs s !! path))).

(** [os.path.join(a, b)] for a relative [b]. *)
Definition path_join (a b : string) : string := a +:+ "/" +:+ b.

(** [file.save(path)] of an uploaded file. *)
Definition file_save `{Env} (content : bytes) (path : string) : M unit :=
  emit (FileSave path);;
  match save_error path with
  | Some e => raise e
  | None =>
      modify (λ s, Machine (<[path := content]> (fs s)) (heap s) (locals s) (log s))
  end.

(** [os.remove(path)]: a path that does not exist cannot be removed, and
    removing one that exists may fail as well. *)
Definition os_remove `{Env} (path : string) : M unit :=
  emit (OsRemove path);;
  found ← gets (λ s, bool_decide (is_Some (fs s !! path)));
  if negb found then
    raise (Exn "FileNotFoundError"
             ("[Errno 2] No such file or directory: '" +:+ path +:+ "'"))
  else
    match remove_error path with
    | Some e => raise e
    | None =>
        modify (λ s, Machine (delete path (fs s)) (heap s) (locals s) (log s))
    end.

(** [cv2.imread(path)]: [None] when the file is missing or is not an image. *)
Definition imread `{Env} (path : string) : M (option loc) :=
  emit (Imread path);;
  content ← gets (λ s, fs s !! path);
  match content ≫= imread_decode with
  | Some img => l ← new_array img; mret (Some l)
  | None => mret None
  end.

(** [cv2.imwrite(path, img)]. *)
Definition imwrite `{Env} (path : string) (l : loc) : M bool :=
  emit (Imwrite path);;
  img ← read_array l;
  match imwrite_outcome path img with
  | WriteError e => raise e
  | NotWritten => mret false
  | Written =>
      modify (λ s, Machine (<[path := file_encoding path img]> (fs s))
                     (heap s) (locals s) (log s));;
      mret true
  end.

(** [int(x)] on a fractional value: truncation towards zero. *)
Definition int_of_Q (q : Q) : Z := Z.quot (Qnum q) (Z.pos (Qden q)).

(** ** [utils/detector.py] *)

Module Detector.
Section detector.
Context `{Env}.

(** A detection as stored in the result list:
    [{'class': ..., 'confidence': ..., 'bbox': [x1, y1, x2, y2]}]. *)
Record Detection := {
  d_class : string;
  d_confidence : float;
  d_bbox : Z * Z * Z * Z
}.

(** [{'total_items': ..., 'categories': {...}}]. *)
Record Statistics := {
  total_items : nat;
  categories : gmap string nat
}.

Record WasteDetector := {
  class_names : gmap Z string;
  colors : gmap string pixel;
  default_color : pixel
}.


(** The corners handed to [cv2.rectangle] for the label background:
    [(x1, y1 - label_height - 10)] and [(x1 + label_width + 10, y1)]. *)
Definition label_background (x1 y1 label_width label_height : Z) : rect :=
  Rect x1 (y1 - label_height - 10) (x1 + label_width + 10) y1.

(** The body of the loop over the boxes of one result, drawing on the array
    at [annotated] with the drawing functions of [cv]. *)
Definition annotate_box_on (cv : Canvas) (self : WasteDetector) (annotated : loc)
    (box : raw_box float) : M Detection :=
  let '(bx1, by1, bx2, by2) := xyxy box in
  let x1 := int_of_Q bx1 in
  let y1 := int_of_Q by1 in
  let x2 := int_of_Q bx2 in
  let y2 := int_of_Q by2 in
  let cls := int_of_Q (box_cls box) in
  let conf := box_conf box in
  class_name ←
    match class_names self !! cls with
    | Some name => mret name
    | None => raise (Exn "KeyError" (pretty cls))
    end;
  let color := default (default_color self) (colors self !! str_lower class_name) in
  rectangle cv annotated (Rect x1 y1 x2 y2) color 2;;
  let label := class_name +:+ ": " +:+ format_2f conf in
  let '((label_width, label_height), baseline) := getTextSize label in
  rectangle cv annotated (label_background x1 y1 label_width label_height) color (-1);;
  putText cv annotated label (x1 + 5, y1 - 5) (0, 0, 0);;
  mret {| d_class := class_name;
          d_confidence := round4 conf;
          d_bbox := (x1, y1, x2, y2) |}.

(** The loop body as the detector runs it, with OpenCV. *)
Definition annotate_box : WasteDetector → loc → raw_box float → M Detection :=
  annotate_box_on cv2.

(** Inference on the array at [image], then annotation of a copy of it:
    the part that [detect_image] and [detect_frame] have in common. *)
Definition predict_and_annotate (self : WasteDetector) (image : loc)
    (conf_threshold : float) : M (loc * list Detection) :=
  source ← read_array image;
  emit Predict;;
  results ← lift (predict source conf_threshold);
  annotated ← copy_array image;
  detections ← for_each (λ boxes, for_each (annotate_box self annotated) boxes) results;
  mret (annotated, concat detections).

(** [WasteDetector.detect_image]. *)
Definition detect_image (self : WasteDetector) (image_path : string)
    (conf_threshold : float) : M (loc * list Detection) :=
  image ← imread image_path;
  match image with
  | None => raise (Exn "ValueError" ("Could not read image at " +:+ image_path))
  | Some image => predict_and_annotate self image conf_threshold
  end.

(** [WasteDetector.detect_frame]. *)
Definition detect_frame (self : WasteDetector) (frame : loc)
    (conf_threshold : float) : M (loc * list Detection) :=
  predict_and_annotate self frame conf_threshold.

(** One round of the counting loop of [get_statistics]. *)
Definition count_detection (cats : gmap string nat) (detection : Detection)
    : gmap string nat :=
  let class_name := d_class detection in
  let cats :=
    if decide (cats !! class_name = None) then <[class_name := 0%nat]> cats else cats in
  <[class_name := (cats !!! class_name + 1)%nat]> cats.

(** [WasteDetector.get_statistics]. *)
Definition get_statistics (detections : list Detection) : Statistics :=
  {| total_items := length detections;
     categories := foldl count_detection ∅ detections |}.

(** [sum(stats['categories'].values())]. *)
Definition sum_counts (cats : gmap string nat) : nat :=
  map_fold (λ _ n acc, (n + acc)%nat) 0%nat cats.

(** The number of detections of class [c]. *)
Definition class_count (c : string) (detections : list Detection) : nat :=
  length (filter (λ d, d_class d = c) detections).

End detector.
End Detector.

(** ** [app.py] *)

Module App.
Section app.
Context `{Env}.

Definition UPLOAD_FOLDER : string := "static/uploads".

(** [app.config['MAX_CONTENT_LENGTH']], in bytes. *)
Definition MAX_CONTENT_LENGTH : Z := 16 * 1024 * 1024.

(** [ALLOWED_EXTENSIONS], a Python set. *)
Definition ALLOWED_EXTENSIONS : gset string := {[ "png"; "jpg"; "jpeg"; "bmp"; "webp" ]}.

(** [xs[i]]. *)
Definition py_index (xs : list string) (i : nat) : result string :=
  match xs !! i with
  | Some x => Ok x
  | None => Raise (Exn "IndexError" "list index out of range")
  end.

(** [allowed_file]: [and] evaluates its right operand only when the name has
    a dot, so the index [1] is always in range. *)
Definition allowed_file (filename : string) : bool :=
  str_contains "." filename &&
  match py_index (str_rsplit1 "." filename) 1 with
  | Ok ext => bool_decide (str_lower ext ∈ ALLOWED_EXTENSIONS)
  | Raise _ => false
  end.


(** The uploaded part of a multipart request. *)
Record FileStorage := {
  filename : string;
  content : bytes
}.

(** The form of a POST to [/detect], as Flask parses it out of the body:
    [request.files.get('file')] and [request.form.get('confidence')]. *)
Record upload_request := {
  files_file : option FileStorage;
  form_confidence : option string
}.

(** A POST to [/detect] as it arrives: the length of its body, whether the
    parts of its form are within the limits that werkzeug itself sets (on
    their number and on the memory the fields take, where the installed
    version has such limits), and the form that the body holds. *)
Record post := {
  content_length : Z;
  parts_within_limits : bool;
  form : upload_request
}.

(** The JSON object of a POST to [/detect_frame]: its ['image'] string and
    its ['confidence'] value (as written in the body), when present. *)
Record frame_json := {
  json_image : option string;
  json_confidence : option string
}.

Inductive body :=
| Failure (error : string)
| UploadResult (original_image detected_image : string)
    (detections : list Detector.Detection) (statistics : Detector.Statistics)
    (confidence_threshold : float)
| FrameResult (annotated_image : string)
    (detections : list Detector.Detection) (statistics : Detector.Statistics)
    (confidence_threshold : float).

Record response := Response {
  status : nat;
  payload : body
}.

Definition model_not_loaded : response :=
  Response 500 (Failure "Model not loaded. Please check if models/best.pt exists.").

(** [float(form_or_json.get('confidence', 0.25))]. *)
Definition confidence_of (field : option string) : M float :=
  match field with
  | None => mret default_confidence
  | Some text => lift (float_of_str text)
  end.

(** The name under which [/detect] stores the upload:
    [f"{timestamp}_{secure_filename(file.filename)}"]. *)
Definition stored_name (file : FileStorage) : string :=
  pretty time_ms +:+ "_" +:+ secure_filename (filename file).

Definition upload_path (file : FileStorage) : string :=
  path_join UPLOAD_FOLDER (stored_name file).

Definition detected_path (file : FileStorage) : string :=
  path_join UPLOAD_FOLDER ("detected_" +:+ stored_name file).

(** The [try] block of [detect]. *)
Definition detect_try (detector : Detector.WasteDetector) (file : FileStorage)
    (confidence : option string) : M response :=
  let filename := stored_name file in
  assign "filepath" (path_join UPLOAD_FOLDER filename);;
  filepath ← var "filepath";
  file_save (content file) filepath;;
  conf_threshold ← confidence_of confidence;
  '(annotated_image, detections) ← Detector.detect_image detector filepath conf_threshold;
  let output_filename := "detected_" +:+ filename in
  assign "output_path" (path_join UPLOAD_FOLDER output_filename);;
  output_path ← var "output_path";
  imwrite output_path annotated_image;;
  let stats := Detector.get_statistics detections in
  mret (Response 200
          (UploadResult ("/" +:+ UPLOAD_FOLDER +:+ "/" +:+ filename)
                        ("/" +:+ UPLOAD_FOLDER +:+ "/" +:+ output_filename)
                        detections stats conf_threshold)).

(** The inner [try] of the handler of [detect]: remove the files if they
    exist. *)
Definition remove_files : M unit :=
  filepath ← var "filepath";
  found ← path_exists filepath;
  (if found : bool then os_remove filepath else mret ());;
  output_path ← var "output_path";
  found ← path_exists output_path;
  if found : bool then os_remove output_path else mret ().

(** The [except Exception as e] block of [detect]. *)
Definition detect_except (e : exn) : M response :=
  try_except remove_files (λ _, mret ());;
  mret (Response 500 (Failure ("Detection failed: " +:+ exn_str e))).

(** The view [detect] of the route [/detect], on the form of a request
    whose body Flask has parsed. [detector] is the value of the global. *)
Definition detect (detector : option Detector.WasteDetector) (request : upload_request)
    : M response :=
  match detector with
  | None => mret model_not_loaded
  | Some detector =>
      match files_file request with
      | None => mret (Response 400 (Failure "No file uploaded"))
      | Some file =>
          if decide (filename file = "") then
            mret (Response 400 (Failure "No file selected"))
          else if negb (allowed_file (filename file)) then
            mret (Response 400
                    (Failure ("Invalid file type. Allowed types: "
                              +:+ str_join ", " (set_iteration ALLOWED_EXTENSIONS))))
          else
            new_frame;;
            try_except (detect_try detector file (form_confidence request))
                       detect_except
      end
  end.

(** The exception with which Flask refuses a body. *)
Definition RequestEntityTooLarge : exn :=
  Exn "RequestEntityTooLarge"
      "413 Request Entity Too Large: The data value transmitted exceeds the capacity limit.".

(** Whether Flask parses the body of a POST: not when it is longer than
    [MAX_CONTENT_LENGTH], nor when its parts exceed werkzeug's limits. *)
Definition accepted (p : post) : bool :=
  bool_decide (content_length p ≤ MAX_CONTENT_LENGTH) && parts_within_limits p.

(** The first use of [request.files]: Flask parses the body then, and
    raises when it refuses the body. *)
Definition request_files (p : post) : M upload_request :=
  if accepted p then mret (form p) else raise RequestEntityTooLarge.

(** The view [detect] on a POST as it arrives. The handle is tested before
    the request is looked at; [request.files] is first used by the test for
    the file part, which stands before the [try] block. *)
Definition detect_post (detector : option Detector.WasteDetector) (p : post)
    : M response :=
  match detector with
  | None => mret model_not_loaded
  | Some detector => request ← request_files p; detect (Some detector) request
  end.

(** [too_large], the handler that the application registers for 413. *)
Definition too_large (e : exn) : M response :=
  mret (Response 413 (Failure "File is too large. Maximum size is 16MB")).

(** [/detect] as Flask serves it: [RequestEntityTooLarge] is the exception
    of status 413, and is answered by the handler registered for it. *)
Definition serve_detect (detector : option Detector.WasteDetector) (p : post)
    : M response :=
  try_except (detect_post detector p)
    (λ e, if decide (exn_class e = "RequestEntityTooLarge") then too_large e
          else raise e).

(** The string that [detect_frame] hands to the base64 decoder. *)
Definition image_payload (image : string) : result string :=
  if str_contains "," image then py_index (str_split "," image) 1 else Ok image.

(** The [try] block of [detect_frame]; [data] is [request.json]. *)
Definition detect_frame_try (detector : Detector.WasteDetector)
    (data : option frame_json) : M response :=
  match data ≫= json_image with
  | None => mret (Response 400 (Failure "No image data provided"))
  | Some image =>
      image_data ← lift (image_payload image);
      conf_threshold ← confidence_of (data ≫= json_confidence);
      emit (B64Decode image_data);;
      image_bytes ← lift (b64decode image_data);
      emit Imdecode;;
      frame ← lift (imdecode image_bytes);
      match frame with
      | None => mret (Response 400 (Failure "Failed to decode image"))
      | Some pixels =>
          frame ← new_array pixels;
          '(annotated_frame, detections) ← Detector.detect_frame detector frame conf_threshold;
          annotated ← read_array annotated_frame;
          emit Imencode;;
          buffer ← lift (imencode ".jpg" annotated);
          let annotated_base64 := b64encode buffer in
          let stats := Detector.get_statistics detections in
          mret (Response 200
                  (FrameResult ("data:image/jpeg;base64," +:+ annotated_base64)
                               detections stats conf_threshold))
      end
  end.

(** The route [/detect_frame]. *)
Definition detect_frame (detector : option Detector.WasteDetector)
    (data : option frame_json) : M response :=
  match detector with
  | None => mret model_not_loaded
  | Some detector =>
      try_except (detect_frame_try detector data)
        (λ e, mret (Response 500 (Failure ("Frame detection failed: " +:+ exn_str e))))
  end.

End app.
End App.

(** ** The annotation loop as a function of the image and the boxes *)

Module Rendering.
Section rendering.
Context `{Env}.

(** The entry that the loop appends for a box whose class is named
    [class_name]: the name, the confidence rounded to four places, and the
    corners truncated to integers. *)
Definition detection_of (class_name : string) (box : raw_box float)
    : Detector.Detection :=
  let '(bx1, by1, bx2, by2) := xyxy box in
  {| Detector.d_class := class_name;
     Detector.d_confidence := round4 (box_conf box);
     Detector.d_bbox := (int_of_Q bx1, int_of_Q by1, int_of_Q bx2, int_of_Q by2) |}.

(** The colour of a class: the table is asked for the lower-case name, and
    a name it lacks gets the default colour. *)
Definition color_of (self : Detector.WasteDetector) (class_name : string) : pixel :=
  default (Detector.default_color self) (Detector.colors self !! str_lower class_name).

Definition label_of (class_name : string) (box : raw_box float) : string :=
  class_name +:+ ": " +:+ format_2f (box_conf box).

(** The points of the three drawing calls for a box: the outline, the
    label background, the label text. *)
Definition outline_points (box : raw_box float) : list (Z * Z) :=
  let '(bx1, by1, bx2, by2) := xyxy box in
  stroke_points (Rect (int_of_Q bx1) (int_of_Q by1) (int_of_Q bx2) (int_of_Q by2)) 2.

Definition background_points (class_name : string) (box : raw_box float)
    : list (Z * Z) :=
  let '(bx1, by1, bx2, by2) := xyxy box in
  let '((label_width, label_height), baseline) :=
    getTextSize (label_of class_name box) in
  filled_points
    (Detector.label_background (int_of_Q bx1) (int_of_Q by1) label_width label_height).

Definition glyph_points (class_name : string) (box : raw_box float) : list (Z * Z) :=
  let '(bx1, by1, bx2, by2) := xyxy box in
  text_points (label_of class_name box) (int_of_Q bx1 + 5, int_of_Q by1 - 5).

(** What the three calls make of an image, in the order of the calls. *)
Definition render_box (self : Detector.WasteDetector) (class_name : string)
    (box : raw_box float) (img : raster) : raster :=
  paint (0, 0, 0) (glyph_points class_name box)
    (paint (color_of self class_name) (background_points class_name box)
       (paint (color_of self class_name) (outline_points box) img)).


(** The loop over the boxes, on an image: the entries collected and the
    image as drawn, up to the first box whose class index the table of
    names lacks. *)
Fixpoint annotate_all (self : Detector.WasteDetector) (boxes : list (raw_box float))
    (img : raster) : result (list Detector.Detection) * raster :=
  match boxes with
  | [] => (Ok [], img)
  | box :: boxes' =>
      match Detector.class_names self !! int_of_Q (box_cls box) with
      | None => (Raise (Exn "KeyError" (pretty (int_of_Q (box_cls box)))), img)
      | Some class_name =>
          let '(r, img') :=
            annotate_all self boxes' (render_box self class_name box img) in
          (match r with
           | Ok detections => Ok (detection_of class_name box :: detections)
           | Raise e => Raise e
           end, img')
      end
  end.

End rendering.
End Rendering.

(** ** A concrete environment, to run the handlers on examples *)

Module Sample.

(** Where the camera frame of the examples is kept. *)
Definition camera_frame : loc := 1%positive.

(** A black image of four rows and six columns. *)
Definition image : raster := replicate 4 (replicate 6 (0, 0, 0)).

Definition jpeg_bytes : bytes := [Byte.xff; Byte.xd8; Byte.xff; Byte.xd9].

(** The edges of a rectangle, one pixel wide. *)
Definition edges (r : rect) (thickness : Z) : list (Z * Z) :=
  filled_points (Rect (r_x1 r) (r_y1 r) (r_x2 r) (r_y1 r)) ++
  filled_points (Rect (r_x1 r) (r_y2 r) (r_x2 r) (r_y2 r)) ++
  filled_points (Rect (r_x1 r) (r_y1 r) (r_x1 r) (r_y2 r)) ++
  filled_points (Rect (r_x2 r) (r_y1 r) (r_x2 r) (r_y2 r)).

(** An environment whose model reports one box of class 0 on every image,
    where only ["0.5"] and ["0.25"] parse as numbers, every non-empty file
    is an image, and removing a file fails when [remove_fails] is set. *)
Definition env (remove_fails : bool) (write : imwrite_result) : Env := {|
  float := Q;
  default_confidence := 1 # 4;
  float_of_str := λ text,
    if decide (text = "0.5") then Ok (1 # 2)
    else if decide (text = "0.25") then Ok (1 # 4)
    else Raise (Exn "ValueError"
                  ("could not convert string to float: '" +:+ text +:+ "'"));
  format_2f := λ _, "0.90";
  round4 := λ x, x;
  set_iteration := elements;
  set_iteration_perm := λ X, reflexivity (elements X);
  secure_filename := λ name, name;
  time_ms := 1700000000000;
  yolo_load := λ _, Ok {[ 0 := "plastic"; 1 := "paper" ]};
  predict := λ _ _, Ok [[RawBox (3 # 2, 1 # 1, 9 # 2, 3 # 1) (0 # 1) (9 # 10)]];
  imread_decode := λ b, match b with [] => None | _ => Some image end;
  imdecode := λ b, Ok (match b with [] => None | _ => Some image end);
  imencode := λ _ _, Ok jpeg_bytes;
  imwrite_outcome := λ _ _, write;
  file_encoding := λ _ _, jpeg_bytes;
  getTextSize := λ label, ((11 * Z.of_nat (String.length label), 14), 6);
  stroke_points := edges;
  text_points := λ _ origin, [origin];
  save_error := λ _, None;
  remove_error := λ path,
    if remove_fails
    then Some (Exn "PermissionError" ("[Errno 13] Permission denied: '" +:+ path +:+ "'"))
    else None
|}.

(** The environment in which every removal succeeds and every image is
    written. *)
Definition plain : Env := env false Written.

Definition detector : Detector.WasteDetector :=
  {| Detector.class_names := {[ 0 := "plastic"; 1 := "paper" ]};
     Detector.colors := {[ "plastic" := (0, 255, 255) ]};
     Detector.default_color := (0, 255, 0) |}.

Definition detection (class_name : string) (conf : Q) (bbox : Z * Z * Z * Z)
    : Detector.Detection (H := plain) :=
  @Detector.Build_Detection plain class_name conf bbox.

Definition empty_machine : machine := Machine ∅ ∅ ∅ [].

(** A machine that holds one array, the camera frame. *)
Definition camera_machine : machine := Machine ∅ {[ camera_frame := image ]} ∅ [].

(** An upload that is not an image: it has no content. *)
Definition empty_upload (name : string) : App.FileStorage :=
  {| App.filename := name; App.content := [] |}.

Definition upload (name : string) : App.FileStorage :=
  {| App.filename := name; App.content := jpeg_bytes |}.

(** The box that the model of the sample environment reports. *)
Definition box : raw_box Q := RawBox (3 # 2, 1 # 1, 9 # 2, 3 # 1) (0 # 1) (9 # 10).

(** The sample environment with a model that answers [results] on every
    image. *)
Definition env_of (results : list (list (raw_box Q))) : Env := {|
  float := Q;
  default_confidence := 1 # 4;
  float_of_str := float_of_str (Env := plain);
  format_2f := λ _, "0.90";
  round4 := λ x, x;
  set_iteration := elements;
  set_iteration_perm := λ X, reflexivity (elements X);
  secure_filename := λ name, name;
  time_ms := 1700000000000;
  yolo_load := λ _, Ok {[ 0 := "plastic"; 1 := "paper" ]};
  predict := λ _ _, Ok results;
  imread_decode := λ b, match b with [] => None | _ => Some image end;
  imdecode := λ b, Ok (match b with [] => None | _ => Some image end);
  imencode := λ _ _, Ok jpeg_bytes;
  imwrite_outcome := λ _ _, Written;
  file_encoding := λ _ _, jpeg_bytes;
  getTextSize := λ label, ((11 * Z.of_nat (String.length label), 14), 6);
  stroke_points := edges;
  text_points := λ _ origin, [origin];
  save_error := λ _, None;
  remove_error := λ _, None
|}.


(** A POST of [size] bytes that carries the file [file] and no confidence. *)
Definition post_of (size : Z) (file : option App.FileStorage) : App.post :=
  {| App.content_length := size;
     App.parts_within_limits := true;
     App.form := {| App.files_file := file; App.form_confidence := None |} |}.

(** A detector whose table of class names is empty. *)
Definition blind_detector : Detector.WasteDetector :=
  {| Detector.class_names := ∅;
     Detector.colors := ∅;
     Detector.default_color := (0, 255, 0) |}.

End Sample.

(** * Properties *)

(** ** Statistics *)

Section statistics.
Context `{Env}.
Implicit Types (cats : gmap string nat) (d : Detector.Detection)
  (detections : list Detector.Detection) (c : string).

Lemma count_detection_lookup cats d c :
  Detector.count_detection cats d !! c =
    if decide (Detector.d_class d = c)
    then Some (S (default 0%nat (cats !! c)))
    else cats !! c.
Proof.
  unfold Detector.count_detection.
  destruct (decide (Detector.d_class d = c)) as [Heq|Hne].
  - subst c. rewrite lookup_insert_eq. f_equal.
    case_decide as Hc.
    + rewrite lookup_total_insert_eq, Hc. simpl. lia.
    + rewrite lookup_total_alt.
      destruct (cats !! Detector.d_class d); simpl; [lia | done].
  - rewrite lookup_insert_ne by done.
    case_decide; [by rewrite lookup_insert_ne | done].
Qed.

Lemma class_count_cons d detections c :
  Detector.class_count c (d :: detections) =
    if decide (Detector.d_class d = c)
    then S (Detector.class_count c detections)
    else Detector.class_count c detections.
Proof.
  unfold Detector.class_count. rewrite filter_cons.
  by destruct (decide (Detector.d_class d = c)).
Qed.

Lemma foldl_count_lookup detections cats c :
  foldl Detector.count_detection cats detections !! c =
    match Detector.class_count c detections with
    | O => cats !! c
    | S n => Some (S n + default 0%nat (cats !! c))%nat
    end.
Proof.
  revert cats. induction detections as [|d ds IH]; intros cats; [done|].
  simpl foldl. rewrite IH, class_count_cons, count_detection_lookup.
  destruct (decide (Detector.d_class d = c)) as [Heq|Hne]; [|done].
  destruct (Detector.class_count c ds); simpl; f_equal; lia.
Qed.

Lemma sum_counts_insert_fresh cats c n :
  cats !! c = None →
  Detector.sum_counts (<[c := n]> cats) = (n + Detector.sum_counts cats)%nat.
Proof.
  intros Hc. unfold Detector.sum_counts.
  rewrite map_fold_insert_L; [done | intros; lia | done].
Qed.

Lemma sum_counts_count_detection cats d :
  Detector.sum_counts (Detector.count_detection cats d) = S (Detector.sum_counts cats).
Proof.
  unfold Detector.count_detection.
  set (c := Detector.d_class d).
  case_decide as Hc.
  - rewrite lookup_total_insert_eq, insert_insert_eq.
    by rewrite sum_counts_insert_fresh.
  - destruct (cats !! c) as [n|] eqn:Hn; [clear Hc | done].
    rewrite (lookup_total_correct _ _ _ Hn).
    rewrite <- (insert_delete_eq cats c (n + 1)%nat).
    rewrite sum_counts_insert_fresh by apply lookup_delete_eq.
    rewrite <- (insert_delete_id cats c n Hn) at 2.
    rewrite sum_counts_insert_fresh by apply lookup_delete_eq. lia.
Qed.

Lemma sum_counts_foldl detections cats :
  Detector.sum_counts (foldl Detector.count_detection cats detections) =
    (length detections + Detector.sum_counts cats)%nat.
Proof.
  revert cats. induction detections as [|d ds IH]; intros cats; [done|].
  simpl. rewrite IH, sum_counts_count_detection. lia.
Qed.

(** C1. For every list of detections, the empty one included,
    [get_statistics] reports as [total_items] the length of the list, its
    per-category counts add up to that length, and the bucket of a class
    holds exactly the number of detections whose ['class'] is that class
    (a class without detections has no bucket): each detection is counted
    once, in the bucket its class names. *)
Theorem get_statistics_counts detections :
  Detector.total_items (Detector.get_statistics detections) = length detections ∧
  Detector.sum_counts (Detector.categories (Detector.get_statistics detections))
    = length detections ∧
  ∀ c, Detector.categories (Detector.get_statistics detections) !! c =
         if decide (Detector.class_count c detections = 0%nat) then None
         else Some (Detector.class_count c detections).
Proof.
  split; [done|]. split.
  - simpl. rewrite sum_counts_foldl. unfold Detector.sum_counts.
    rewrite map_fold_empty. lia.
  - intros c. simpl. rewrite foldl_count_lookup, lookup_empty.
    destruct (Detector.class_count c detections); simpl; [done|].
    f_equal. lia.
Qed.

End statistics.

(** ** Drawing *)

Section drawing.
Implicit Types (img : raster) (color : pixel) (pts : list (Z * Z)) (r : rect).

Lemma set_pixel_shape color img p : shape (set_pixel color img p) = shape img.
Proof.
  destruct p as [x y]. unfold set_pixel, shape.
  destruct (_ && _); [|done].
  erewrite list_fmap_alter with (h := id).
  - by rewrite list_alter_id.
  - apply Forall_forall. intros row _. simpl. by rewrite length_insert.
Qed.

Lemma paint_shape color pts img : shape (paint color pts img) = shape img.
Proof.
  unfold paint. revert img.
  induction pts as [|p pts IH]; intros img; [done|].
  simpl. by rewrite IH, set_pixel_shape.
Qed.

(** A pixel write reaches the array only at the coordinate it names, and
    only when the array has a pixel there. *)
Lemma set_pixel_at color img x y i j :
  pixel_at (set_pixel color img (x, y)) i j =
    if decide (x = Z.of_nat j ∧ y = Z.of_nat i)
    then (λ _, color) <$> pixel_at img i j
    else pixel_at img i j.
Proof.
  unfold set_pixel, pixel_at.
  destruct (0 <=? x) eqn:Hx; destruct (0 <=? y) eqn:Hy; simpl;
    try (rewrite decide_False by lia; done).
  apply Z.leb_le in Hx, Hy.
  destruct (decide (Z.to_nat y = i)) as [<-|Hi].
  - rewrite list_lookup_alter_eq.
    destruct (img !! Z.to_nat y) as [row|]; simpl; [|by case_decide].
    destruct (decide (Z.to_nat x = j)) as [<-|Hj].
    + rewrite decide_True by lia.
      destruct (row !! Z.to_nat x) eqn:Hrow; simpl.
      * apply list_lookup_insert_eq. by eapply lookup_lt_Some.
      * apply lookup_ge_None. rewrite length_insert. by apply lookup_ge_None.
    + rewrite decide_False by lia. by apply list_lookup_insert_ne.
  - rewrite list_lookup_alter_ne by done. rewrite decide_False by lia. done.
Qed.

Lemma paint_at color pts img i j :
  pixel_at (paint color pts img) i j =
    if decide ((Z.of_nat j, Z.of_nat i) ∈ pts)
    then (λ _, color) <$> pixel_at img i j
    else pixel_at img i j.
Proof.
  unfold paint. revert img.
  induction pts as [|[x y] pts IH]; intros img.
  - case_decide as Hin; [by inversion Hin | done].
  - change (foldl (set_pixel color) img ((x, y) :: pts))
      with (foldl (set_pixel color) (set_pixel color img (x, y)) pts).
    rewrite IH, set_pixel_at.
    destruct (decide (x = Z.of_nat j ∧ y = Z.of_nat i)) as [[-> ->]|Hne].
    + destruct (decide (_ ∈ pts)); destruct (decide (_ ∈ _ :: pts)) as [|Hn];
        try (exfalso; apply Hn; by left); [|done].
      by destruct (pixel_at img i j).
    + destruct (decide (_ ∈ pts)) as [Hin|Hin];
        destruct (decide (_ ∈ _ :: pts)) as [Hc|Hc]; try done.
      * exfalso. apply Hc. by right.
      * exfalso. apply elem_of_cons in Hc as [Heq|?]; [|done].
        injection Heq as <- <-. by apply Hne.
Qed.

Lemma elem_of_Zrange lo hi k : k ∈ Zrange lo hi ↔ lo ≤ k ≤ hi.
Proof. unfold Zrange. rewrite elem_of_seqZ. lia. Qed.

Lemma elem_of_filled_points r x y : (x, y) ∈ filled_points r ↔ in_rect r x y.
Proof.
  unfold filled_points, in_rect. rewrite list_elem_of_bind. split.
  - intros (y' & Hx & Hy). apply list_elem_of_bind in Hx as (x' & Hp & Hx).
    apply list_elem_of_singleton in Hp. injection Hp as -> ->.
    apply elem_of_Zrange in Hx, Hy. lia.
  - intros [Hx Hy]. exists y. split; [|by apply elem_of_Zrange].
    apply list_elem_of_bind. exists x. split; [|by apply elem_of_Zrange].
    by apply list_elem_of_singleton.
Qed.

End drawing.

(** ** Running the monad *)

Section monad.

Lemma run_bind {A B} (m : M A) (k : A → M B) s :
  (m ≫= k) s = match m s with
               | (Ok a, s') => k a s'
               | (Raise e, s') => (Raise e, s')
               end.
Proof. done. Qed.

Lemma run_bind_ok {A B} (m : M A) (k : A → M B) s a s' :
  m s = (Ok a, s') → (m ≫= k) s = k a s'.
Proof. intros Hm. by rewrite run_bind, Hm. Qed.

Lemma run_bind_raise {A B} (m : M A) (k : A → M B) s e s' :
  m s = (Raise e, s') → (m ≫= k) s = (Raise e, s').
Proof. intros Hm. by rewrite run_bind, Hm. Qed.

Lemma try_except_bind_ok {A B} (m : M A) (k : A → M B) handler s a s' :
  m s = (Ok a, s') → try_except (m ≫= k) handler s = try_except (k a) handler s'.
Proof. intros Hm. unfold try_except. by rewrite run_bind, Hm. Qed.

Lemma try_except_bind_raise {A B} (m : M A) (k : A → M B) handler s e s' :
  m s = (Raise e, s') → try_except (m ≫= k) handler s = handler e s'.
Proof. intros Hm. unfold try_except. by rewrite run_bind, Hm. Qed.

Lemma steps_ret {A} (R : relation machine) `{!Reflexive R} (a : A) :
  steps R (mret a : M A).
Proof. intros s. simpl. reflexivity. Qed.

Lemma steps_raise {A} (R : relation machine) `{!Reflexive R} e :
  steps R (raise e : M A).
Proof. intros s. simpl. reflexivity. Qed.

Lemma steps_bind {A B} (R : relation machine) `{!Transitive R} (m : M A) (k : A → M B) :
  steps R m → (∀ a, steps R (k a)) → steps R (m ≫= k).
Proof.
  intros Hm Hk s. rewrite run_bind. specialize (Hm s).
  destruct (m s) as [[a|e] s']; simpl in *; [|done].
  etrans; [done | apply Hk].
Qed.

Lemma steps_for_each {A B} (R : relation machine) `{!PreOrder R} (f : A → M B) xs :
  (∀ x, steps R (f x)) → steps R (for_each f xs).
Proof.
  intros Hf. induction xs as [|x xs IH]; cbn [for_each].
  - apply steps_ret, _.
  - apply steps_bind; [apply _ | done | intros y].
    apply steps_bind; [apply _ | done | intros ys]. apply steps_ret, _.
Qed.

(** A loop whose every round succeeds while [I] holds, and keeps [I],
    succeeds; its results are related to its inputs, one by one, as the
    rounds relate them. *)
Lemma for_each_ok {A B} (I : machine → Prop) (Q : A → B → Prop) (f : A → M B) xs s :
  (∀ x, x ∈ xs → ∀ s, I s → ∃ y s', f x s = (Ok y, s') ∧ I s' ∧ Q x y) →
  I s →
  ∃ ys s', for_each f xs s = (Ok ys, s') ∧ I s' ∧ Forall2 Q xs ys.
Proof.
  revert s. induction xs as [|x xs IH]; intros s Hf HI.
  - by exists [], s.
  - destruct (Hf x (ltac:(left)) s HI) as (y & s1 & Hx & HI1 & HQ).
    destruct (IH s1) as (ys & s2 & Hxs & HI2 & HQs); [|done|].
    { intros x' Hx'. apply Hf. by right. }
    exists (y :: ys), s2. split; [|split; [done | by constructor]].
    cbn [for_each]. rewrite (run_bind_ok _ _ _ _ _ Hx).
    by rewrite (run_bind_ok _ _ _ _ _ Hxs).
Qed.

Lemma length_concat_Forall2 {A B} (xss : list (list A)) (yss : list (list B)) :
  Forall2 (λ xs ys, length ys = length xs) xss yss →
  length (concat yss) = length (concat xss).
Proof.
  induction 1 as [|xs ys xss yss Hlen _ IH]; [done|].
  simpl. rewrite !length_app. lia.
Qed.

End monad.

(** ** Annotation *)

Section annotation.
Context `{Env}.
Implicit Types (self : Detector.WasteDetector) (img : raster) (l : loc)
  (box : raw_box float) (boxes : list (raw_box float)) (s : machine).

Global Instance only_draws_preorder l : PreOrder (only_draws l).
Proof.
  split.
  - intros s. split; eauto.
  - intros s1 s2 s3 H12 H23. split.
    + by rewrite (draws_fs _ _ _ H23), (draws_fs _ _ _ H12).
    + by rewrite (draws_locals _ _ _ H23), (draws_locals _ _ _ H12).
    + by rewrite (draws_log _ _ _ H23), (draws_log _ _ _ H12).
    + intros l' Hl'.
      by rewrite (draws_others _ _ _ H23 _ Hl'), (draws_others _ _ _ H12 _ Hl').
    + intros img Himg.
      destruct (draws_shape _ _ _ H12 _ Himg) as (img2 & Himg2 & Hs2).
      destruct (draws_shape _ _ _ H23 _ Himg2) as (img3 & Himg3 & Hs3).
      exists img3. split; [done | congruence].
Qed.

Lemma draw_steps l color pts : steps (only_draws l) (draw l color pts).
Proof.
  intros s. unfold draw.
  destruct (heap s !! l) as [img|] eqn:Himg; simpl; [|reflexivity].
  split; simpl; try done.
  - intros l' Hl'. by rewrite lookup_insert_ne.
  - intros img' Himg'. exists (paint color pts img).
    rewrite lookup_insert_eq. split; [done|].
    rewrite paint_shape. congruence.
Qed.

Lemma draw_ok l color pts s img :
  heap s !! l = Some img →
  ∃ s', draw l color pts s = (Ok (), s') ∧ is_Some (heap s' !! l).
Proof.
  intros Himg. unfold draw. rewrite Himg. eexists. split; [done|].
  simpl. rewrite lookup_insert_eq. by eexists.
Qed.

Lemma annotate_box_steps self l box :
  steps (only_draws l) (Detector.annotate_box self l box).
Proof.
  unfold Detector.annotate_box, Detector.annotate_box_on.
  destruct (xyxy box) as [[[bx1 by1] bx2] by2].
  apply steps_bind; [apply _ | | intros class_name].
  { destruct (Detector.class_names self !! _);
      [apply steps_ret | apply steps_raise]; apply _. }
  apply steps_bind; [apply _ | apply draw_steps | intros _].
  destruct (getTextSize _) as [[label_width label_height] baseline].
  apply steps_bind; [apply _ | apply draw_steps | intros _].
  apply steps_bind; [apply _ | apply draw_steps | intros _].
  apply steps_ret, _.
Qed.

Lemma annotate_box_ok self l box s :
  is_Some (Detector.class_names self !! int_of_Q (box_cls box)) →
  is_Some (heap s !! l) →
  ∃ d s', Detector.annotate_box self l box s = (Ok d, s') ∧ is_Some (heap s' !! l).
Proof.
  intros [name Hname] [img0 H0].
  unfold Detector.annotate_box, Detector.annotate_box_on.
  destruct (xyxy box) as [[[bx1 by1] bx2] by2]. rewrite Hname.
  rewrite run_bind. simpl.
  destruct (draw_ok l (default (Detector.default_color self)
              (Detector.colors self !! str_lower name))
              (stroke_points (Rect (int_of_Q bx1) (int_of_Q by1)
                                   (int_of_Q bx2) (int_of_Q by2)) 2) s img0 H0)
    as (s1 & Hd1 & [img1 H1]).
  rewrite (run_bind_ok _ _ _ _ _ Hd1).
  destruct (getTextSize _) as [[label_width label_height] baseline].
  destruct (draw_ok l (default (Detector.default_color self)
              (Detector.colors self !! str_lower name))
              (filled_points (Detector.label_background (int_of_Q bx1) (int_of_Q by1)
                                label_width label_height)) s1 img1 H1)
    as (s2 & Hd2 & [img2 H2]).
  rewrite (run_bind_ok _ _ _ _ _ Hd2).
  destruct (draw_ok l (0, 0, 0)
              (text_points (name +:+ ": " +:+ format_2f (box_conf box))
                 (int_of_Q bx1 + 5, int_of_Q by1 - 5)) s2 img2 H2)
    as (s3 & Hd3 & Hs3).
  rewrite (run_bind_ok _ _ _ _ _ Hd3).
  by eexists _, s3.
Qed.

Lemma annotate_boxes_ok self l (boxes : list (raw_box float)) s :
  Forall (λ box, is_Some (Detector.class_names self !! int_of_Q (box_cls box))) boxes →
  is_Some (heap s !! l) →
  ∃ ds s', for_each (Detector.annotate_box self l) boxes s = (Ok ds, s') ∧
           is_Some (heap s' !! l) ∧ length ds = length boxes.
Proof.
  intros Hcls Hl.
  destruct (for_each_ok (λ s, is_Some (heap s !! l)) (λ _ _, True)
              (Detector.annotate_box self l) boxes s) as (ds & s' & Hrun & Hl' & HQ);
    [|done|].
  - intros box Hbox s0 Hs0. rewrite Forall_forall in Hcls.
    destruct (annotate_box_ok self l box s0 (Hcls _ Hbox) Hs0) as (d & s1 & ? & ?).
    by exists d, s1.
  - exists ds, s'. split; [done|]. split; [done|].
    symmetry. by eapply Forall2_length.
Qed.


(** The common body returns whenever the model does and knows the class
    of every box it reports; it then returns one detection per box. *)
Lemma predict_and_annotate_returns self image conf s img results :
  heap s !! image = Some img →
  predict img conf = Ok results →
  Forall (λ box, is_Some (Detector.class_names self !! int_of_Q (box_cls box)))
         (concat results) →
  ∃ annotated dets s',
    Detector.predict_and_annotate self image conf s = (Ok (annotated, dets), s') ∧
    length dets = length (concat results).
Proof.
  intros Himg Hpredict Hcls. unfold Detector.predict_and_annotate.
  rewrite (run_bind_ok _ _ _ img s) by (unfold read_array; by rewrite Himg).
  rewrite (run_bind_ok _ _ _ () (Machine (fs s) (heap s) (locals s) (log s ++ [Predict])))
    by done.
  set (s1 := Machine _ _ _ _).
  rewrite (run_bind_ok _ _ _ results s1) by (unfold lift; by rewrite Hpredict).
  set (annotated := fresh (dom (heap s))).
  set (s2 := Machine (fs s) (<[annotated := img]> (heap s)) (locals s)
                     (log s ++ [Predict])).
  rewrite (run_bind_ok _ _ _ annotated s2).
  2:{ unfold copy_array. rewrite (run_bind_ok _ _ _ img s1); [done|].
      unfold read_array. simpl. by rewrite Himg. }
  destruct (for_each_ok (λ s, is_Some (heap s !! annotated))
              (λ (boxes : list (raw_box float)) (ds : list Detector.Detection),
                 length ds = length boxes)
              (λ boxes, for_each (Detector.annotate_box self annotated) boxes)
              results s2) as (dss & s3 & Hrun & _ & Hlen).
  - intros boxes Hboxes s0 Hs0.
    destruct (annotate_boxes_ok self annotated boxes s0) as (ds & s' & ? & ? & ?);
      [|done|by exists ds, s'].
    rewrite Forall_forall in Hcls. apply Forall_forall. intros box Hbox.
    apply Hcls, list_elem_of_In, in_concat. exists boxes.
    split; by apply list_elem_of_In.
  - simpl. rewrite lookup_insert_eq. by eexists.
  - rewrite (run_bind_ok _ _ _ dss s3 Hrun).
    eexists _, _, _. split; [done|]. by apply length_concat_Forall2.
Qed.

Lemma machine_eta s : Machine (fs s) (heap s) (locals s) (log s) = s.
Proof. by destruct s. Qed.

Lemma run_draw l color pts s img :
  heap s !! l = Some img →
  draw l color pts s =
    (Ok (), Machine (fs s) (<[l := paint color pts img]> (heap s)) (locals s) (log s)).
Proof. intros Himg. unfold draw. by rewrite Himg. Qed.

Lemma for_each_app_bind {A B C} (f : A → M B) (k : list B → M C) xs zs s :
  (ys ← for_each f (xs ++ zs); k ys) s =
  (a ← for_each f xs; b ← for_each f zs; k (a ++ b)) s.
Proof.
  revert k s. induction xs as [|x xs IH]; intros k s.
  - simpl app. cbn [for_each]. rewrite (run_bind_ok (mret []) _ s [] s) by done. done.
  - simpl app. cbn [for_each]. rewrite !run_bind.
    destruct (f x s) as [[y|e] s1]; [|done].
    specialize (IH (λ ys, k (y :: ys)) s1). rewrite !run_bind in IH.
    rewrite !run_bind.
    destruct (for_each f (xs ++ zs) s1) as [[ys|e] s2];
      destruct (for_each f xs s1) as [[a|e'] s3]; simpl in *;
      rewrite ?run_bind in *; try done.
Qed.

(** A loop over the lists of a list of lists does what one loop over
    their concatenation does. *)
Lemma for_each_concat {A B C} (f : A → M B) (k : list B → M C) xss s :
  (yss ← for_each (λ xs, for_each f xs) xss; k (concat yss)) s =
  (ys ← for_each f (concat xss); k ys) s.
Proof.
  revert k s. induction xss as [|xs xss IH]; intros k s.
  - done.
  - simpl concat. rewrite for_each_app_bind. cbn [for_each]. rewrite !run_bind.
    destruct (for_each f xs s) as [[a|e] s1]; [|done].
    specialize (IH (λ ys, k (a ++ ys)) s1). rewrite !run_bind in IH.
    rewrite !run_bind.
    destruct (for_each (λ xs0, for_each f xs0) xss s1) as [[yss|e] s2];
      destruct (for_each f (concat xss) s1) as [[b|e'] s3]; simpl in *; done.
Qed.

(** One round of the loop, on a machine whose array at [l] holds [img]. *)
Lemma annotate_box_run self l box s img :
  heap s !! l = Some img →
  Detector.annotate_box self l box s =
    match Detector.class_names self !! int_of_Q (box_cls box) with
    | None => (Raise (Exn "KeyError" (pretty (int_of_Q (box_cls box)))), s)
    | Some class_name =>
        (Ok (Rendering.detection_of class_name box),
         Machine (fs s) (<[l := Rendering.render_box self class_name box img]> (heap s))
                 (locals s) (log s))
    end.
Proof.
  intros Himg.
  unfold Detector.annotate_box, Detector.annotate_box_on, Rendering.render_box,
    Rendering.detection_of, Rendering.outline_points, Rendering.background_points,
    Rendering.glyph_points, Rendering.label_of, Rendering.color_of.
  destruct (xyxy box) as [[[bx1 by1] bx2] by2].
  destruct (Detector.class_names self !! int_of_Q (box_cls box)) as [class_name|];
    [|done].
  rewrite (run_bind_ok _ _ _ class_name s) by done.
  cbn [rectangle putText cv2].
  destruct (decide (2 < 0)) as [?|_]; [lia|]. destruct (decide (-1 < 0)) as [_|?]; [|lia].
  erewrite run_bind_ok by (by apply run_draw).
  destruct (getTextSize _) as [[label_width label_height] baseline].
  erewrite run_bind_ok by (apply run_draw; simpl; apply lookup_insert_eq).
  erewrite run_bind_ok by (apply run_draw; simpl; apply lookup_insert_eq).
  simpl. by rewrite !insert_insert_eq.
Qed.

Lemma for_each_annotate_run self l boxes s img :
  heap s !! l = Some img →
  for_each (Detector.annotate_box self l) boxes s =
    ((Rendering.annotate_all self boxes img).1,
     Machine (fs s) (<[l := (Rendering.annotate_all self boxes img).2]> (heap s))
             (locals s) (log s)).
Proof.
  revert s img. induction boxes as [|box boxes IH]; intros s img Himg.
  - simpl. by rewrite insert_id, machine_eta.
  - cbn [for_each Rendering.annotate_all].
    rewrite run_bind, (annotate_box_run _ _ _ _ img Himg).
    destruct (Detector.class_names self !! int_of_Q (box_cls box)) as [class_name|].
    2:{ simpl. by rewrite insert_id, machine_eta. }
    rewrite run_bind.
    rewrite (IH _ (Rendering.render_box self class_name box img))
      by (simpl; apply lookup_insert_eq).
    simpl. rewrite insert_insert_eq.
    destruct (Rendering.annotate_all self boxes _) as [[detections|e] img']; done.
Qed.

(** The common body of [detect_image] and [detect_frame], run on an array
    that holds [img] for which the model gives [results]. *)
Lemma predict_and_annotate_run self image conf s img results :
  heap s !! image = Some img →
  predict img conf = Ok results →
  Detector.predict_and_annotate self image conf s =
    (match (Rendering.annotate_all self (concat results) img).1 with
     | Ok detections => Ok (fresh (dom (heap s)), detections)
     | Raise e => Raise e
     end,
     Machine (fs s)
       (<[fresh (dom (heap s)) := (Rendering.annotate_all self (concat results) img).2]>
          (heap s))
       (locals s) (log s ++ [Predict])).
Proof.
  intros Himg Hpredict. unfold Detector.predict_and_annotate.
  rewrite (run_bind_ok _ _ _ img s) by (unfold read_array; by rewrite Himg).
  set (s1 := Machine (fs s) (heap s) (locals s) (log s ++ [Predict])).
  rewrite (run_bind_ok _ _ _ () s1) by done.
  rewrite (run_bind_ok _ _ _ results s1) by (unfold lift; by rewrite Hpredict).
  set (annotated := fresh (dom (heap s))).
  set (s2 := Machine (fs s) (<[annotated := img]> (heap s)) (locals s)
                     (log s ++ [Predict])).
  rewrite (run_bind_ok _ _ _ annotated s2).
  2:{ unfold copy_array. rewrite (run_bind_ok _ _ _ img s1); [done|].
      unfold read_array. simpl. by rewrite Himg. }
  rewrite (for_each_concat (Detector.annotate_box self annotated)
             (λ detections, mret (annotated, detections))).
  rewrite run_bind.
  rewrite (for_each_annotate_run _ _ _ _ img) by (simpl; apply lookup_insert_eq).
  simpl. rewrite insert_insert_eq.
  by destruct (Rendering.annotate_all self (concat results) img).1.
Qed.

Lemma render_box_at self class_name box img (i j : nat) :
  pixel_at (Rendering.render_box self class_name box img) i j =
    if decide ((Z.of_nat j, Z.of_nat i) ∈ Rendering.glyph_points class_name box)
    then (λ _, (0, 0, 0)) <$> pixel_at img i j
    else if decide ((Z.of_nat j, Z.of_nat i) ∈ Rendering.background_points class_name box
                    ∨ (Z.of_nat j, Z.of_nat i) ∈ Rendering.outline_points box)
    then (λ _, Rendering.color_of self class_name) <$> pixel_at img i j
    else pixel_at img i j.
Proof.
  unfold Rendering.render_box. rewrite !paint_at.
  destruct (pixel_at img i j) as [p|]; repeat case_decide; simpl; try done; tauto.
Qed.

Lemma annotate_all_known self boxes img :
  Forall (λ box, is_Some (Detector.class_names self !! int_of_Q (box_cls box))) boxes →
  ∃ detections,
    (Rendering.annotate_all self boxes img).1 = Ok detections ∧
    Forall2 (λ box d,
               Detector.class_names self !! int_of_Q (box_cls box)
                 = Some (Detector.d_class d) ∧
               d = Rendering.detection_of (Detector.d_class d) box)
            boxes detections.
Proof.
  intros Hknown. revert img.
  induction Hknown as [|box boxes [class_name Hname] _ IH]; intros img.
  - by exists [].
  - cbn [Rendering.annotate_all]. rewrite Hname.
    destruct (IH (Rendering.render_box self class_name box img))
      as (detections & Hrun & Hall).
    destruct (Rendering.annotate_all self boxes _) as [r img']. simpl in *. subst r.
    exists (Rendering.detection_of class_name box :: detections). split; [done|].
    constructor; [|done].
    unfold Rendering.detection_of. by destruct (xyxy box) as [[[??]?]?].
Qed.

Lemma annotate_all_unknown self known bad rest img :
  Forall (λ box, is_Some (Detector.class_names self !! int_of_Q (box_cls box))) known →
  Detector.class_names self !! int_of_Q (box_cls bad) = None →
  (Rendering.annotate_all self (known ++ bad :: rest) img).1 =
    Raise (Exn "KeyError" (pretty (int_of_Q (box_cls bad)))).
Proof.
  intros Hknown Hbad. revert img.
  induction Hknown as [|box boxes [class_name Hname] _ IH]; intros img.
  - simpl. by rewrite Hbad.
  - simpl app. cbn [Rendering.annotate_all]. rewrite Hname.
    specialize (IH (Rendering.render_box self class_name box img)).
    destruct (Rendering.annotate_all self (boxes ++ bad :: rest) _) as [r img'].
    simpl in *. by subst r.
Qed.

Lemma annotate_all_outside self boxes img (i j : nat) :
  (∀ box class_name, box ∈ boxes →
     Detector.class_names self !! int_of_Q (box_cls box) = Some class_name →
     ((Z.of_nat j, Z.of_nat i) ∉ Rendering.outline_points box) ∧
     ((Z.of_nat j, Z.of_nat i) ∉ Rendering.background_points class_name box) ∧
     ((Z.of_nat j, Z.of_nat i) ∉ Rendering.glyph_points class_name box)) →
  pixel_at (Rendering.annotate_all self boxes img).2 i j = pixel_at img i j.
Proof.
  revert img. induction boxes as [|box boxes IH]; intros img Hout; [done|].
  cbn [Rendering.annotate_all].
  destruct (Detector.class_names self !! int_of_Q (box_cls box)) as [class_name|]
    eqn:Hname; [|done].
  specialize (IH (Rendering.render_box self class_name box img)).
  destruct (Rendering.annotate_all self boxes _) as [r img']. simpl in *.
  rewrite IH by (intros; apply Hout; [by right | done]).
  rewrite render_box_at.
  destruct (Hout box class_name) as (Ho & Hb & Hg); [by left | done |].
  rewrite decide_False by done. rewrite decide_False by tauto. done.
Qed.




Lemma run_imread path s content img :
  fs s !! path = Some content →
  imread_decode content = Some img →
  imread path s =
    (Ok (Some (fresh (dom (heap s)))),
     Machine (fs s) (<[fresh (dom (heap s)) := img]> (heap s)) (locals s)
             (log s ++ [Imread path])).
Proof.
  intros Hcontent Himg. unfold imread.
  set (s1 := Machine (fs s) (heap s) (locals s) (log s ++ [Imread path])).
  rewrite (run_bind_ok _ _ _ () s1) by done.
  rewrite (run_bind_ok _ _ _ (Some content) s1)
    by (unfold gets; simpl; by rewrite Hcontent).
  simpl. rewrite Himg. by rewrite (run_bind_ok _ _ _ (fresh (dom (heap s)))
    (Machine (fs s) (<[fresh (dom (heap s)) := img]> (heap s)) (locals s)
             (log s ++ [Imread path]))).
Qed.



(** C7, as the code has it. The label background is not clamped. Run with
    a canvas that writes down the calls it gets, the loop body, for a box of
    a known class with corners [(x1, y1)] and [(x2, y2)] once truncated,
    makes three calls on the array: the outline, the filled rectangle of
    the label background, the label text. The filled rectangle is called
    with the corners [(x1, y1 - label_height - 10)] and
    [(x1 + label_width + 10, y1)]: its top is negative exactly when
    [y1 < label_height + 10]. Run with OpenCV, the image is protected by the
    clipping of the drawing call alone: the array keeps its shape, and
    apart from what the outline and the label text cover, a pixel of it
    changes exactly when it lies in that rectangle, so the part of the
    rectangle above row 0 is not drawn. *)
Theorem label_background_is_clipped_not_clamped self l box s img class_name
    (bx1 by1 bx2 by2 : Q) (label_width label_height baseline : Z) :
  heap s !! l = Some img →
  Detector.class_names self !! int_of_Q (box_cls box) = Some class_name →
  xyxy box = (bx1, by1, bx2, by2) →
  getTextSize (class_name +:+ ": " +:+ format_2f (box_conf box))
    = ((label_width, label_height), baseline) →
  ∃ color label top,
    color = default (Detector.default_color self)
              (Detector.colors self !! str_lower class_name) ∧
    label = class_name +:+ ": " +:+ format_2f (box_conf box) ∧
    top = int_of_Q by1 - label_height - 10 ∧
    (top < 0 ↔ int_of_Q by1 < label_height + 10) ∧
    (∃ d, Detector.annotate_box_on recorder self l box s =
       (Ok d,
        Machine (fs s) (heap s) (locals s)
          (log s ++
             [CvRectangle l (Rect (int_of_Q bx1) (int_of_Q by1)
                                  (int_of_Q bx2) (int_of_Q by2)) color 2;
              CvRectangle l (Rect (int_of_Q bx1) top
                                  (int_of_Q bx1 + label_width + 10) (int_of_Q by1))
                          color (-1);
              CvPutText l label (int_of_Q bx1 + 5, int_of_Q by1 - 5) (0, 0, 0)]))) ∧
    (∃ d s' out,
       Detector.annotate_box self l box s = (Ok d, s') ∧
       heap s' !! l = Some out ∧
       shape out = shape img ∧
       ∀ i j : nat,
         (Z.of_nat j, Z.of_nat i)
           ∉ text_points label (int_of_Q bx1 + 5, int_of_Q by1 - 5) →
         (Z.of_nat j, Z.of_nat i)
           ∉ stroke_points (Rect (int_of_Q bx1) (int_of_Q by1)
                                 (int_of_Q bx2) (int_of_Q by2)) 2 →
         pixel_at out i j =
           if decide (in_rect (Rect (int_of_Q bx1) top
                                    (int_of_Q bx1 + label_width + 10) (int_of_Q by1))
                              (Z.of_nat j) (Z.of_nat i))
           then (λ _, color) <$> pixel_at img i j
           else pixel_at img i j).
Proof.
  intros Himg Hname Hbox Hsize.
  eexists _, _, _. split; [reflexivity|]. split; [reflexivity|].
  split; [reflexivity|]. split; [lia|]. split.
  - unfold Detector.annotate_box_on. rewrite Hbox, Hname.
    rewrite (run_bind_ok _ _ _ class_name s) by done.
    cbn [rectangle putText recorder].
    rewrite run_bind. cbn [emit]. rewrite Hsize.
    rewrite run_bind. cbn [emit]. rewrite run_bind. cbn [emit].
    eexists. unfold Detector.label_background. simpl. by rewrite <- !app_assoc.
  - rewrite (annotate_box_run _ _ _ _ img Himg), Hname.
    eexists _, _, _. split; [done|]. split; [simpl; apply lookup_insert_eq|].
    split; [unfold Rendering.render_box; by rewrite !paint_shape|].
    intros i j Htext Hstroke. rewrite render_box_at.
    unfold Rendering.glyph_points, Rendering.background_points,
      Rendering.outline_points, Rendering.label_of, Rendering.color_of,
      Detector.label_background.
    rewrite Hbox, Hsize. rewrite decide_False by done.
    destruct (decide (in_rect _ _ _)) as [Hin|Hin].
    + rewrite decide_True; [done|]. left. by apply elem_of_filled_points.
    + rewrite decide_False; [done|]. intros [Hb|Ho]; [|done].
      by apply Hin, elem_of_filled_points.
Qed.

End annotation.

(** ** Request validation *)

Section validation.
Context `{Env}.

Lemma after_last_None sep s :
  after_last sep s = None → str_contains sep s = false.
Proof.
  induction s as [|c s IH]; [done|]. simpl.
  destruct (after_last sep s); [done|].
  destruct (decide (c = sep)); [done | auto].
Qed.

Lemma after_last_app sep h t :
  str_contains sep t = false → after_last sep (h +:+ String sep t) = Some t.
Proof.
  intros Ht. induction h as [|a h IH].
  - change (after_last sep (String sep t) = Some t). simpl.
    destruct (after_last sep t) eqn:Hlast.
    + exfalso. clear -Ht Hlast. induction t as [|c t IHt]; [done|]. simpl in *.
      destruct (decide (c = sep)); [done|].
      destruct (after_last sep t); [auto | done].
    + by rewrite decide_True.
  - change (after_last sep (String a (h +:+ String sep t)) = Some t).
    simpl. by rewrite IH.
Qed.

Lemma after_last_Some sep s t :
  after_last sep s = Some t ↔
  ∃ h, s = h +:+ String sep t ∧ str_contains sep t = false.
Proof.
  split.
  - revert t. induction s as [|a s IH]; intros t; [done|]. simpl.
    destruct (after_last sep s) as [t'|] eqn:Hlast.
    + intros [= <-]. destruct (IH t' eq_refl) as (h & -> & Hnone).
      by exists (String a h).
    + destruct (decide (a = sep)) as [->|]; [|done].
      intros [= <-]. exists "". split; [done|]. by apply after_last_None.
  - intros (h & -> & Ht). by apply after_last_app.
Qed.

Lemma after_last_contains sep s :
  str_contains sep s = bool_decide (is_Some (after_last sep s)).
Proof.
  induction s as [|a s IH]; [done|]. simpl. rewrite IH.
  destruct (after_last sep s); destruct (decide (a = sep)); try done.
Qed.

Lemma before_last_is_Some sep s :
  is_Some (before_last sep s) ↔ is_Some (after_last sep s).
Proof.
  induction s as [|a s IH]; simpl; [done|].
  destruct (before_last sep s), (after_last sep s), (decide (a = sep));
    try done; destruct IH as [IH1 IH2];
    solve [ by destruct IH1 | by destruct IH2 ].
Qed.

(** [allowed_file] accepts exactly the names whose text after the last dot,
    in lower case, is one of the allowed extensions. *)
Lemma allowed_file_extension name :
  App.allowed_file name = true ↔
  ∃ stem ext, name = stem +:+ String "." ext ∧ str_contains "." ext = false ∧
              str_lower ext ∈ App.ALLOWED_EXTENSIONS.
Proof.
  unfold App.allowed_file, str_rsplit1. rewrite after_last_contains.
  pose proof (before_last_is_Some "." name) as Hb.
  destruct (after_last "." name) as [ext|] eqn:Hext.
  - destruct (before_last "." name) as [stem|]; [|by destruct (proj2 Hb)].
    simpl. rewrite bool_decide_eq_true.
    apply after_last_Some in Hext as (h & -> & Hnone). split.
    + intros Hin. by exists h, ext.
    + intros (stem' & ext' & Hname & Hnone' & Hin).
      assert (after_last "." (h +:+ String "." ext) = Some ext) as H1
        by (apply after_last_Some; eauto).
      assert (after_last "." (h +:+ String "." ext) = Some ext') as H2
        by (rewrite Hname; apply after_last_Some; eauto).
      congruence.
  - simpl. split; [done|]. intros (stem & ext & -> & Hnone & _).
    assert (after_last "." (stem +:+ String "." ext) = Some ext) as H1
      by (apply after_last_Some; eauto).
    congruence.
Qed.




(** The members of [ALLOWED_EXTENSIONS], in whatever order. *)
Lemma allowed_extensions_elements :
  elements App.ALLOWED_EXTENSIONS ≡ₚ ["png"; "jpg"; "jpeg"; "bmp"; "webp"].
Proof.
  apply NoDup_Permutation.
  - apply NoDup_elements.
  - apply (bool_decide_unpack _). by vm_compute.
  - intros x. rewrite elem_of_elements. unfold App.ALLOWED_EXTENSIONS.
    rewrite !elem_of_union, !elem_of_singleton, !elem_of_cons, elem_of_nil. tauto.
Qed.

(** On a body that Flask accepts the view goes on with the form; on any
    other it raises, at its second test. *)
Lemma detect_post_accepted detector (p : App.post) (s : machine) :
  App.accepted p = true →
  App.detect_post (Some detector) p s = App.detect (Some detector) (App.form p) s.
Proof. intros Hsize. unfold App.detect_post, App.request_files. by rewrite Hsize. Qed.

Lemma detect_post_refused detector (p : App.post) (s : machine) :
  App.accepted p = false →
  App.detect_post (Some detector) p s = (Raise App.RequestEntityTooLarge, s).
Proof. intros Hsize. unfold App.detect_post, App.request_files. by rewrite Hsize. Qed.

Lemma accepted_spec (p : App.post) :
  App.accepted p = true ↔
  App.content_length p ≤ App.MAX_CONTENT_LENGTH ∧ App.parts_within_limits p = true.
Proof.
  unfold App.accepted. rewrite andb_true_iff, bool_decide_eq_true. done.
Qed.

(** What the view returns is what the route answers. *)
Lemma serve_detect_returns handle (p : App.post) (s : machine) response s' :
  App.detect_post handle p s = (Ok response, s') →
  App.serve_detect handle p s = (Ok response, s').
Proof. intros Hrun. unfold App.serve_detect, try_except. by rewrite Hrun. Qed.

(** C4, as the code has it. With the detector loaded, a POST to [/detect]
    whose body Flask accepts (it is no longer than [MAX_CONTENT_LENGTH], and
    its parts are within werkzeug's limits) and that has no file part, or
    whose file name is empty, or whose file name [allowed_file] refuses (no
    dot, or the text after the last dot is, in lower case, none of png,
    jpg, jpeg, bmp, webp), is answered 400 by the view itself, with the
    message of the test that failed; the message of the third test lists
    the five extensions in the order in which the set happens to be
    iterated. The machine is left as it was: no file is saved and no
    detection is attempted. *)
Theorem invalid_upload_is_rejected
    (detector : Detector.WasteDetector) (p : App.post) (s : machine) :
  App.content_length p ≤ App.MAX_CONTENT_LENGTH →
  App.parts_within_limits p = true →
  (App.files_file (App.form p) = None ∨
   ∃ file, App.files_file (App.form p) = Some file ∧
           (App.filename file = "" ∨ App.allowed_file (App.filename file) = false)) →
  ∃ message,
    App.detect_post (Some detector) p s =
      (Ok (App.Response 400 (App.Failure message)), s) ∧
    App.serve_detect (Some detector) p s =
      (Ok (App.Response 400 (App.Failure message)), s) ∧
    match App.files_file (App.form p) with
    | None => message = "No file uploaded"
    | Some file =>
        if decide (App.filename file = "") then message = "No file selected"
        else ∃ names,
               message = "Invalid file type. Allowed types: " +:+ str_join ", " names ∧
               names ≡ₚ ["png"; "jpg"; "jpeg"; "bmp"; "webp"]
    end.
Proof.
  intros Hsize Hparts Hbad.
  assert (App.accepted p = true) as Haccepted by (by apply accepted_spec).
  assert (∃ message,
            App.detect (Some detector) (App.form p) s =
              (Ok (App.Response 400 (App.Failure message)), s) ∧
            match App.files_file (App.form p) with
            | None => message = "No file uploaded"
            | Some file =>
                if decide (App.filename file = "") then message = "No file selected"
                else ∃ names,
                       message = "Invalid file type. Allowed types: "
                                 +:+ str_join ", " names ∧
                       names ≡ₚ ["png"; "jpg"; "jpeg"; "bmp"; "webp"]
            end) as (message & Hrun & Hmessage).
  { unfold App.detect. destruct Hbad as [Hnone|(file & Hfile & Hbad)].
    - rewrite Hnone. by eexists.
    - rewrite Hfile. destruct (decide (App.filename file = "")) as [Hempty|Hname].
      + by eexists.
      + destruct Hbad as [?|Hbad]; [done|]. rewrite Hbad. eexists. split; [done|].
        exists (set_iteration App.ALLOWED_EXTENSIONS). split; [done|].
        rewrite set_iteration_perm. apply allowed_extensions_elements. }
  exists message. rewrite <- (detect_post_accepted detector p s Haccepted) in Hrun.
  split; [done|]. split; [by apply serve_detect_returns | done].
Qed.

End validation.

(** ** The camera-frame route *)

Section frame_route.
Context `{Env}.
Implicit Types (detector : Detector.WasteDetector) (s : machine).

Lemma b64decode_not_base64 :
  b64decode "not-base64" =
    Raise (Exn "binascii.Error"
             "Invalid base64-encoded string: number of data characters (9) cannot be 1 more than a multiple of 4").
Proof. vm_compute. reflexivity. Qed.

(** A payload on which the base64 decoder raises is answered by the
    catch-all handler of the route. *)
Lemma undecodable_base64_is_answered_500 detector image data e s :
  App.image_payload image = Ok data →
  b64decode data = Raise e →
  App.detect_frame (Some detector)
      (Some {| App.json_image := Some image; App.json_confidence := None |}) s =
    (Ok (App.Response 500 (App.Failure ("Frame detection failed: " +:+ exn_str e))),
     Machine (fs s) (heap s) (locals s) (log s ++ [B64Decode data])).
Proof.
  intros Hdata Hraise.
  unfold App.detect_frame, App.detect_frame_try, try_except. simpl.
  rewrite (run_bind_ok _ _ _ data s) by (unfold lift; by rewrite Hdata).
  rewrite (run_bind_ok _ _ _ default_confidence s) by done.
  rewrite (run_bind_ok _ _ _ ()
             (Machine (fs s) (heap s) (locals s) (log s ++ [B64Decode data])))
    by done.
  rewrite (run_bind_raise _ _ _ e
             (Machine (fs s) (heap s) (locals s) (log s ++ [B64Decode data])));
    [done|].
  unfold lift. by rewrite Hraise.
Qed.

(** C5, at the input of the spec's scenario. A POST to [/detect_frame]
    whose image is ["not-base64"] is not answered 400: the base64 decoder
    raises on it, the catch-all handler of the route takes the exception,
    and the answer is 500 with the decoder's message. Nothing but the
    decoder has been called. *)
Theorem invalid_base64_is_answered_500 detector s :
  App.detect_frame (Some detector)
      (Some {| App.json_image := Some "not-base64"; App.json_confidence := None |}) s =
    (Ok (App.Response 500
           (App.Failure "Frame detection failed: Invalid base64-encoded string: number of data characters (9) cannot be 1 more than a multiple of 4")),
     Machine (fs s) (heap s) (locals s) (log s ++ [B64Decode "not-base64"])).
Proof.
  exact (undecodable_base64_is_answered_500 detector "not-base64" "not-base64" _ s
           eq_refl b64decode_not_base64).
Qed.

(** The branch the decode failure was written for: a payload that is valid
    base64 but not an image is answered 400. *)
Lemma undecodable_image_is_answered_400 detector image data s :
  App.image_payload image = Ok data →
  (∃ image_bytes, b64decode data = Ok image_bytes ∧ imdecode image_bytes = Ok None) →
  App.detect_frame (Some detector)
      (Some {| App.json_image := Some image; App.json_confidence := None |}) s =
    (Ok (App.Response 400 (App.Failure "Failed to decode image")),
     Machine (fs s) (heap s) (locals s) (log s ++ [B64Decode data; Imdecode])).
Proof.
  intros Hdata (image_bytes & Hbytes & Hnone).
  unfold App.detect_frame, App.detect_frame_try, try_except. simpl.
  rewrite (run_bind_ok _ _ _ data s) by (unfold lift; by rewrite Hdata).
  rewrite (run_bind_ok _ _ _ default_confidence s) by done.
  rewrite (run_bind_ok _ _ _ ()
             (Machine (fs s) (heap s) (locals s) (log s ++ [B64Decode data])))
    by done.
  rewrite (run_bind_ok _ _ _ image_bytes
             (Machine (fs s) (heap s) (locals s) (log s ++ [B64Decode data])))
    by (unfold lift; by rewrite Hbytes).
  rewrite (run_bind_ok _ _ _ ()
             (Machine (fs s) (heap s) (locals s) ((log s ++ [B64Decode data]) ++ [Imdecode])))
    by done.
  rewrite (run_bind_ok _ _ _ None
             (Machine (fs s) (heap s) (locals s) ((log s ++ [B64Decode data]) ++ [Imdecode])))
    by (unfold lift; by rewrite Hnone).
  simpl. by rewrite <- app_assoc.
Qed.

Global Instance log_grows_preorder : PreOrder log_grows.
Proof.
  split.
  - intros s. exists []. by rewrite app_nil_r.
  - intros s1 s2 s3 [t1 H1] [t2 H2]. exists (t1 ++ t2).
    by rewrite H2, H1, app_assoc.
Qed.

Lemma steps_weaken {A} (R R' : relation machine) (m : M A) :
  (∀ s s', R s s' → R' s s') → steps R m → steps R' m.
Proof. intros HR Hm s. apply HR, Hm. Qed.

Lemma steps_lift {A} (R : relation machine) `{!Reflexive R} (r : result A) :
  steps R (lift r).
Proof. intros s. simpl. reflexivity. Qed.

Lemma steps_try_except {A} (R : relation machine) `{!Transitive R}
    (body : M A) (handler : exn → M A) :
  steps R body → (∀ e, steps R (handler e)) → steps R (try_except body handler).
Proof.
  intros Hbody Hhandler s. unfold try_except. specialize (Hbody s).
  destruct (body s) as [[a|e] s']; simpl in *; [done|].
  etrans; [done | apply Hhandler].
Qed.

Lemma emit_log_grows ev : steps log_grows (emit ev).
Proof. intros s. by exists [ev]. Qed.

Lemma new_array_log_grows img : steps log_grows (new_array img).
Proof. intros s. exists []. simpl. by rewrite app_nil_r. Qed.

Lemma read_array_log_grows l : steps log_grows (read_array l).
Proof. intros s. unfold read_array. by destruct (heap s !! l); simpl. Qed.

Lemma predict_and_annotate_log_grows detector image conf :
  steps log_grows (Detector.predict_and_annotate detector image conf).
Proof.
  unfold Detector.predict_and_annotate.
  apply steps_bind; [apply _ | apply read_array_log_grows | intros source].
  apply steps_bind; [apply _ | apply emit_log_grows | intros _].
  apply steps_bind; [apply _ | apply steps_lift, _ | intros results].
  apply steps_bind; [apply _ | | intros annotated].
  { apply steps_bind; [apply _ | apply read_array_log_grows | intros img].
    apply new_array_log_grows. }
  apply steps_bind; [apply _ | | intros detections; apply steps_ret, _].
  apply (steps_weaken (only_draws annotated)).
  { intros s s' Hdraws. exists []. by rewrite app_nil_r, (draws_log _ _ _ Hdraws). }
  apply steps_for_each; [apply _ | intros boxes].
  apply steps_for_each; [apply _ | intros box]. apply annotate_box_steps.
Qed.

(** What the route hands to the base64 decoder is [image_payload] of the
    image string: that call is the first one the route makes. *)
Lemma detect_frame_decodes_payload detector image data s :
  App.image_payload image = Ok data →
  ∃ t, log (App.detect_frame (Some detector)
              (Some {| App.json_image := Some image; App.json_confidence := None |}) s).2
       = log s ++ B64Decode data :: t.
Proof.
  intros Hdata.
  unfold App.detect_frame, App.detect_frame_try. simpl.
  assert (∀ image_data, steps log_grows
            (image_bytes ← lift (b64decode image_data);
             emit Imdecode;;
             frame ← lift (imdecode image_bytes);
             match frame with
             | None => mret (App.Response 400 (App.Failure "Failed to decode image"))
             | Some pixels =>
                 frame ← new_array pixels;
                 '(annotated_frame, detections) ←
                   Detector.detect_frame detector frame default_confidence;
                 annotated ← read_array annotated_frame;
                 emit Imencode;;
                 buffer ← lift (imencode ".jpg" annotated);
                 mret (App.Response 200
                         (App.FrameResult ("data:image/jpeg;base64," +:+ b64encode buffer)
                            detections (Detector.get_statistics detections)
                            default_confidence))
             end)) as Hrest.
  { intros image_data.
    apply steps_bind; [apply _ | apply steps_lift, _ | intros image_bytes].
    apply steps_bind; [apply _ | apply emit_log_grows | intros _].
    apply steps_bind; [apply _ | apply steps_lift, _ | intros [pixels|]];
      [|apply steps_ret, _].
    apply steps_bind; [apply _ | apply new_array_log_grows | intros frame].
    apply steps_bind; [apply _ | apply predict_and_annotate_log_grows|].
    intros [annotated_frame detections].
    apply steps_bind; [apply _ | apply read_array_log_grows | intros annotated].
    apply steps_bind; [apply _ | apply emit_log_grows | intros _].
    apply steps_bind; [apply _ | apply steps_lift, _ | intros buffer].
    apply steps_ret, _. }
  rewrite (try_except_bind_ok _ _ _ s data s) by (unfold lift; by rewrite Hdata).
  rewrite (try_except_bind_ok _ _ _ s default_confidence s) by done.
  rewrite (try_except_bind_ok _ _ _ s ()
             (Machine (fs s) (heap s) (locals s) (log s ++ [B64Decode data])))
    by done.
  match goal with
  | |- context [try_except ?body ?handler ?s1] =>
      destruct (steps_try_except log_grows body handler (Hrest data)
                  (λ e, steps_ret log_grows _) s1) as [t Ht]
  end.
  exists t. rewrite Ht. simpl. by rewrite <- app_assoc.
Qed.

Lemma str_split_no_sep sep (text : string) :
  str_contains sep text = false → str_split sep text = [text].
Proof.
  induction text as [|a text IH]; [done|]. simpl.
  destruct (decide (a = sep)); [done|]. intros Hs. by rewrite IH.
Qed.

Lemma str_split_app sep prefix rest :
  str_contains sep prefix = false →
  str_split sep (prefix +:+ String sep rest) = prefix :: str_split sep rest.
Proof.
  induction prefix as [|a prefix IH]; intros Hp.
  - change (str_split sep (String sep rest) = "" :: str_split sep rest).
    simpl. by rewrite decide_True.
  - change (str_split sep (String a (prefix +:+ String sep rest))
            = String a prefix :: str_split sep rest).
    simpl in *. destruct (decide (a = sep)); [done|]. by rewrite IH.
Qed.

Lemma str_contains_app sep prefix rest :
  str_contains sep (prefix +:+ String sep rest) = true.
Proof.
  induction prefix as [|a prefix IH].
  - change (str_contains sep (String sep rest) = true). simpl. by rewrite decide_True.
  - change (str_contains sep (String a (prefix +:+ String sep rest)) = true).
    simpl. by destruct (decide (a = sep)).
Qed.

(** The two cases in which the payload is what a data URL calls for: an
    image string without a comma is decoded whole, and one with a single
    comma is decoded from after that comma to its end. *)
Lemma image_payload_without_comma image :
  str_contains "," image = false → App.image_payload image = Ok image.
Proof. intros Hno. unfold App.image_payload. by rewrite Hno. Qed.

Lemma image_payload_one_comma prefix rest :
  str_contains "," prefix = false →
  str_contains "," rest = false →
  App.image_payload (prefix +:+ String "," rest) = Ok rest.
Proof.
  intros Hprefix Hrest. unfold App.image_payload.
  rewrite str_contains_app, str_split_app, str_split_no_sep by done. done.
Qed.

(** With more commas, the payload stops at the second one. *)
Lemma image_payload_stops_at_second_comma prefix middle rest :
  str_contains "," prefix = false →
  str_contains "," middle = false →
  App.image_payload (prefix +:+ String "," (middle +:+ String "," rest)) = Ok middle.
Proof.
  intros Hprefix Hmiddle. unfold App.image_payload.
  rewrite str_contains_app, !str_split_app by done. done.
Qed.

(** C8, at an image string with two commas. The route does not decode all
    that follows the first comma: of ["data:image/png;base64,AAAA,BBBB"] it
    decodes ["AAAA"], the text between the first comma and the second, and
    the text after the second comma is dropped. The decoder would have
    taken the whole remainder ["AAAA,BBBB"] (it skips the comma) and given
    six bytes instead of three. *)
Theorem payload_stops_at_second_comma detector s :
  App.image_payload "data:image/png;base64,AAAA,BBBB" = Ok "AAAA" ∧
  (∃ t, log (App.detect_frame (Some detector)
               (Some {| App.json_image := Some "data:image/png;base64,AAAA,BBBB";
                        App.json_confidence := None |}) s).2
        = log s ++ B64Decode "AAAA" :: t) ∧
  b64decode "AAAA" = Ok [Byte.x00; Byte.x00; Byte.x00] ∧
  b64decode "AAAA,BBBB" =
    Ok [Byte.x00; Byte.x00; Byte.x00; Byte.x04; Byte.x10; Byte.x41].
Proof.
  split; [by vm_compute|]. split; [|split; by vm_compute].
  apply detect_frame_decodes_payload. by vm_compute.
Qed.

End frame_route.

(** ** The upload route *)

Section upload_route.
Context `{Env}.
Implicit Types (detector : Detector.WasteDetector) (s : machine)
  (file : App.FileStorage) (request : App.upload_request).

Global Instance keeps_files_preorder : PreOrder keeps_files.
Proof.
  split.
  - by intros s.
  - intros s1 s2 s3 [Hf12 Hl12] [Hf23 Hl23]. split; congruence.
Qed.

Lemma detect_image_keeps_files detector path conf :
  steps keeps_files (Detector.detect_image detector path conf).
Proof.
  unfold Detector.detect_image, imread, Detector.predict_and_annotate.
  apply steps_bind; [apply _ | | intros [image|]]; [| |apply steps_raise, _].
  { apply steps_bind; [apply _ | by intros s | intros _].
    apply steps_bind; [apply _ | by intros s | intros content].
    destruct (content ≫= imread_decode) as [img|]; [|apply steps_ret, _].
    apply steps_bind; [apply _ | by intros s | intros l]. apply steps_ret, _. }
  apply steps_bind; [apply _ | | intros source].
  { intros s. unfold read_array. by destruct (heap s !! image). }
  apply steps_bind; [apply _ | by intros s | intros _].
  apply steps_bind; [apply _ | apply steps_lift, _ | intros results].
  apply steps_bind; [apply _ | | intros annotated].
  { apply steps_bind; [apply _ | | by intros img s].
    intros s. unfold read_array. by destruct (heap s !! image). }
  apply steps_bind; [apply _ | | intros detections; apply steps_ret, _].
  apply (steps_weaken (only_draws annotated)).
  { intros s s' Hdraws. split; [apply (draws_fs _ _ _ Hdraws) | apply (draws_locals _ _ _ Hdraws)]. }
  apply steps_for_each; [apply _ | intros boxes].
  apply steps_for_each; [apply _ | intros box]. apply annotate_box_steps.
Qed.

Lemma run_var x v s : locals s !! x = Some v → var x s = (Ok v, s).
Proof. intros Hx. unfold var. by rewrite Hx. Qed.

Lemma run_var_unbound x s :
  locals s !! x = None → ∃ e, var x s = (Raise e, s).
Proof. intros Hx. unfold var. rewrite Hx. by eexists. Qed.

Lemma run_file_save content path s :
  save_error path = None →
  file_save content path s =
    (Ok (), Machine (<[path := content]> (fs s)) (heap s) (locals s)
                    (log s ++ [FileSave path])).
Proof. intros Hsave. unfold file_save. rewrite Hsave. done. Qed.

Lemma run_path_exists path s :
  path_exists path s =
    (Ok (bool_decide (is_Some (fs s !! path))),
     Machine (fs s) (heap s) (locals s) (log s ++ [PathExists path])).
Proof. done. Qed.

Lemma run_os_remove path s :
  is_Some (fs s !! path) →
  os_remove path s =
    match remove_error path with
    | Some e => (Raise e, Machine (fs s) (heap s) (locals s) (log s ++ [OsRemove path]))
    | None => (Ok (), Machine (delete path (fs s)) (heap s) (locals s)
                              (log s ++ [OsRemove path]))
    end.
Proof.
  intros Hfound. unfold os_remove.
  rewrite (run_bind_ok _ _ _ ()
             (Machine (fs s) (heap s) (locals s) (log s ++ [OsRemove path]))) by done.
  rewrite (run_bind_ok _ _ _ true
             (Machine (fs s) (heap s) (locals s) (log s ++ [OsRemove path]))).
  - simpl. by destruct (remove_error path).
  - unfold gets. simpl. by rewrite bool_decide_eq_true_2.
Qed.

Lemma detect_image_log_grows detector path conf :
  steps log_grows (Detector.detect_image detector path conf).
Proof.
  unfold Detector.detect_image, imread.
  apply steps_bind; [apply _ | | intros [image|]];
    [|apply predict_and_annotate_log_grows|apply steps_raise, _].
  apply steps_bind; [apply _ | apply emit_log_grows | intros _].
  apply steps_bind; [apply _ | | intros content].
  { intros s. simpl. reflexivity. }
  destruct (content ≫= imread_decode) as [img|]; [|apply steps_ret, _].
  apply steps_bind; [apply _ | apply new_array_log_grows | intros l]. apply steps_ret, _.
Qed.

Lemma confidence_of_state (field : option string) s :
  (App.confidence_of field s).2 = s.
Proof. by destruct field. Qed.

(** Where the [try] block of [/detect] can be when it raises, once the
    upload has been saved: the upload is the only file written, [filepath]
    is bound to it, and [output_path], if bound, names the output file. *)
Lemma detect_try_raises detector file confidence (files : gmap string bytes)
    (arrays : gmap loc raster) (calls : list event) e s1 :
  save_error (App.upload_path file) = None →
  App.detect_try detector file confidence (Machine files arrays ∅ calls) = (Raise e, s1) →
  fs s1 = <[App.upload_path file := App.content file]> files ∧
  locals s1 !! "filepath" = Some (App.upload_path file) ∧
  (locals s1 !! "output_path" = None ∨
   locals s1 !! "output_path" = Some (App.detected_path file)) ∧
  (∃ t, log s1 = calls ++ FileSave (App.upload_path file) :: t).
Proof.
  intros Hsave Hrun. unfold App.detect_try in Hrun.
  fold (App.upload_path file) in Hrun. fold (App.detected_path file) in Hrun.
  set (p := App.upload_path file) in *.
  set (sA := Machine files arrays (<["filepath" := p]> ∅) calls).
  rewrite (run_bind_ok _ _ _ () sA) in Hrun by done.
  rewrite (run_bind_ok _ _ _ p sA) in Hrun by (apply run_var; apply lookup_insert_eq).
  set (sB := Machine (<[p := App.content file]> files) arrays
                     (<["filepath" := p]> ∅) (calls ++ [FileSave p])).
  rewrite (run_bind_ok _ _ _ () sB) in Hrun by (by apply run_file_save).
  assert (locals sB !! "filepath" = Some p) as HpB by apply lookup_insert_eq.
  assert (locals sB !! "output_path" = None) as HoB.
  { simpl. by rewrite lookup_insert_ne. }
  rewrite run_bind in Hrun.
  pose proof (confidence_of_state confidence sB) as Hconf.
  destruct (App.confidence_of confidence sB) as [[conf|e0] sB']; simpl in Hconf; subst sB'.
  2:{ injection Hrun as <- <-. repeat split; try done; [by left|]. exists []. done. }
  rewrite run_bind in Hrun.
  pose proof (detect_image_keeps_files detector p conf sB) as [HfC HlC].
  pose proof (detect_image_log_grows detector p conf sB) as [tC HtC].
  destruct (Detector.detect_image detector p conf sB) as [[[annotated dets]|e1] sC];
    simpl in HfC, HlC, HtC.
  2:{ injection Hrun as <- <-. rewrite HfC, HlC, HtC. repeat split; try done; [by left|].
      exists tC. by rewrite <- app_assoc. }
  set (sD := Machine (fs sC) (heap sC) (<["output_path" := App.detected_path file]> (locals sC))
                     (log sC)).
  rewrite (run_bind_ok _ _ _ () sD) in Hrun by done.
  rewrite (run_bind_ok _ _ _ (App.detected_path file) sD) in Hrun
    by (apply run_var; apply lookup_insert_eq).
  rewrite run_bind in Hrun. unfold imwrite in Hrun.
  set (sE := Machine (fs sC) (heap sC) (locals sD)
                     (log sC ++ [Imwrite (App.detected_path file)])).
  rewrite (run_bind_ok _ _ _ () sE) in Hrun by done.
  assert (fs sE = <[p := App.content file]> files ∧
          locals sE !! "filepath" = Some p ∧
          (locals sE !! "output_path" = None ∨
           locals sE !! "output_path" = Some (App.detected_path file)) ∧
          ∃ t, log sE = calls ++ FileSave p :: t) as HE.
  { simpl. rewrite HfC. split; [done|]. split.
    - rewrite lookup_insert_ne by done. by rewrite HlC.
    - split; [right; apply lookup_insert_eq|].
      exists (tC ++ [Imwrite (App.detected_path file)]).
      rewrite HtC. simpl. by rewrite <- !app_assoc. }
  rewrite run_bind in Hrun. unfold read_array in Hrun.
  destruct (heap sE !! annotated) as [img|].
  2:{ by injection Hrun as <- <-. }
  destruct (imwrite_outcome (App.detected_path file) img) as [| |e2].
  - discriminate Hrun.
  - discriminate Hrun.
  - by injection Hrun as <- <-.
Qed.

(** The clean-up of [/detect], started where [filepath] is bound to a file
    that exists: it asks for the file and removes it; if that removal
    raises, it stops there; otherwise it goes on to [output_path], which it
    removes if it is bound and exists. It never raises. *)
Lemma cleanup_after_failure s path content :
  locals s !! "filepath" = Some path →
  fs s !! path = Some content →
  ∃ s2 tail,
    try_except App.remove_files (λ _, mret ()) s = (Ok (), s2) ∧
    log s2 = log s ++ PathExists path :: OsRemove path :: tail ∧
    heap s2 = heap s ∧
    match remove_error path with
    | Some _ => fs s2 = fs s ∧ tail = []
    | None =>
        fs s2 !! path = None ∧
        match locals s !! "output_path" with
        | None => fs s2 = delete path (fs s) ∧ tail = []
        | Some out =>
            tail = PathExists out ::
                   (if bool_decide (is_Some (delete path (fs s) !! out))
                    then [OsRemove out] else [])
        end
    end.
Proof.
  intros Hpath Hcontent. unfold App.remove_files.
  rewrite (try_except_bind_ok _ _ _ s path s) by by apply run_var.
  set (s1 := Machine (fs s) (heap s) (locals s) (log s ++ [PathExists path])).
  rewrite (try_except_bind_ok _ _ _ s true s1).
  2:{ rewrite run_path_exists, Hcontent. by rewrite bool_decide_eq_true_2. }
  set (s2 := Machine (delete path (fs s)) (heap s) (locals s)
                     ((log s ++ [PathExists path]) ++ [OsRemove path])).
  destruct (remove_error path) as [e1|] eqn:Hremove.
  { rewrite (try_except_bind_raise _ _ _ s1 e1
               (Machine (fs s) (heap s) (locals s)
                        ((log s ++ [PathExists path]) ++ [OsRemove path])))
      by (rewrite run_os_remove, Hremove; [done | by eexists]).
    eexists _, []. split; [done|]. simpl. by rewrite <- app_assoc. }
  rewrite (try_except_bind_ok _ _ _ s1 () s2)
    by (rewrite run_os_remove, Hremove; [done | by eexists]).
  destruct (locals s !! "output_path") as [out|] eqn:Hout.
  2:{ destruct (run_var_unbound "output_path" s2 Hout) as [e2 Hvar].
      rewrite (try_except_bind_raise _ _ _ s2 e2 _ Hvar).
      eexists _, []. split; [done|]. simpl. rewrite <- app_assoc.
      by rewrite lookup_delete_eq. }
  rewrite (try_except_bind_ok _ _ _ s2 out s2) by by apply run_var.
  set (s3 := Machine (fs s2) (heap s2) (locals s2) (log s2 ++ [PathExists out])).
  rewrite (try_except_bind_ok _ _ _ s2 (bool_decide (is_Some (fs s2 !! out))) s3)
    by apply run_path_exists.
  simpl. destruct (bool_decide (is_Some (delete path (fs s) !! out))) eqn:Hfound.
  - apply bool_decide_eq_true_1 in Hfound.
    unfold try_except. rewrite run_os_remove by done.
    destruct (remove_error out); eexists _, [PathExists out; OsRemove out];
      (split; [done|]); simpl; rewrite <- !app_assoc; simpl;
      (split; [done|]); (split; [done|]); (split; [|done]).
    + by rewrite lookup_delete_eq.
    + destruct (decide (out = path)) as [->|Hne].
      * by rewrite lookup_delete_eq.
      * by rewrite lookup_delete_ne, lookup_delete_eq.
  - eexists _, [PathExists out]. unfold try_except. split; [done|]. simpl.
    rewrite <- !app_assoc. simpl. split; [done|]. split; [done|].
    split; [|done]. by rewrite lookup_delete_eq.
Qed.

Lemma detect_valid detector request file s :
  App.files_file request = Some file →
  App.filename file ≠ "" →
  App.allowed_file (App.filename file) = true →
  App.detect (Some detector) request s =
    try_except (App.detect_try detector file (App.form_confidence request))
               App.detect_except (Machine (fs s) (heap s) ∅ (log s)).
Proof.
  intros Hfile Hname Hallowed. unfold App.detect.
  rewrite Hfile, decide_False, Hallowed by done. done.
Qed.

(** C2. Whenever the [try] block of [/detect] raises [e] after the upload
    has been saved, the route answers 500 with ["Detection failed: "]
    followed by [str(e)]. When [e] is raised the upload is the only file
    the request has written: the output file has not been created. The
    handler then asks whether the upload exists and removes it. If that
    removal fails the error is swallowed: the clean-up ends, the files stay
    as they are and the answer is the same. If it succeeds the upload is
    gone, and the handler goes on to [output_path]: unbound, the clean-up
    ends; bound, it names the output file, which is looked up and removed
    if it exists, again with no effect on the answer if that fails. *)
Theorem detect_failure_is_reported_after_cleanup detector request file s e s1 :
  App.files_file request = Some file →
  App.filename file ≠ "" →
  App.allowed_file (App.filename file) = true →
  save_error (App.upload_path file) = None →
  App.detect_try detector file (App.form_confidence request)
    (Machine (fs s) (heap s) ∅ (log s)) = (Raise e, s1) →
  ∃ s2 tail,
    App.detect (Some detector) request s =
      (Ok (App.Response 500 (App.Failure ("Detection failed: " +:+ exn_str e))), s2) ∧
    fs s1 = <[App.upload_path file := App.content file]> (fs s) ∧
    log s2 = log s1 ++ PathExists (App.upload_path file)
                    :: OsRemove (App.upload_path file) :: tail ∧
    match remove_error (App.upload_path file) with
    | Some _ => fs s2 = fs s1 ∧ tail = []
    | None =>
        fs s2 !! App.upload_path file = None ∧
        match locals s1 !! "output_path" with
        | None => fs s2 = delete (App.upload_path file) (fs s1) ∧ tail = []
        | Some out =>
            out = App.detected_path file ∧
            tail = PathExists out ::
                   (if bool_decide (is_Some (delete (App.upload_path file) (fs s1) !! out))
                    then [OsRemove out] else [])
        end
    end.
Proof.
  intros Hfile Hname Hallowed Hsave Hraise.
  destruct (detect_try_raises _ _ _ _ _ _ _ _ Hsave Hraise)
    as (Hfs & Hpath & Hout & _).
  destruct (cleanup_after_failure s1 (App.upload_path file) (App.content file))
    as (s2 & tail & Hclean & Hlog & _ & Hfiles); [done | |].
  { by rewrite Hfs, lookup_insert_eq. }
  exists s2, tail. split; [|split; [done|split; [done|]]].
  - rewrite (detect_valid _ _ file) by done.
    unfold try_except at 1. rewrite Hraise. unfold App.detect_except.
    by rewrite (run_bind_ok _ _ _ () s2 Hclean).
  - destruct (remove_error (App.upload_path file)); [done|].
    destruct Hfiles as [Hgone Hfiles]. split; [done|].
    destruct (locals s1 !! "output_path") as [out|]; [|done].
    split; [|done]. destruct Hout as [?|Hout]; congruence.
Qed.

(** C10. In [/detect] the confidence field is converted only after the
    upload has been saved. When [float()] raises [e] on it, the calls made
    are, in order, the saving of the upload, the test that it exists, and
    its removal: no image is read and no inference runs. The answer is 500
    with ["Detection failed: "] followed by [str(e)], not a 400, and the
    upload is removed again (it stays only if the removal itself fails). *)
Theorem non_numeric_confidence_is_reported_as_500 detector request file text e s :
  App.files_file request = Some file →
  App.filename file ≠ "" →
  App.allowed_file (App.filename file) = true →
  save_error (App.upload_path file) = None →
  App.form_confidence request = Some text →
  float_of_str text = Raise e →
  ∃ s2,
    App.detect (Some detector) request s =
      (Ok (App.Response 500 (App.Failure ("Detection failed: " +:+ exn_str e))), s2) ∧
    log s2 = log s ++ [FileSave (App.upload_path file);
                       PathExists (App.upload_path file);
                       OsRemove (App.upload_path file)] ∧
    heap s2 = heap s ∧
    fs s2 = match remove_error (App.upload_path file) with
            | Some _ => <[App.upload_path file := App.content file]> (fs s)
            | None => delete (App.upload_path file) (fs s)
            end.
Proof.
  intros Hfile Hname Hallowed Hsave Hfield Hfloat.
  set (p := App.upload_path file).
  set (s1 := Machine (<[p := App.content file]> (fs s)) (heap s)
                     (<["filepath" := p]> ∅) (log s ++ [FileSave p])).
  assert (App.detect_try detector file (App.form_confidence request)
            (Machine (fs s) (heap s) ∅ (log s)) = (Raise e, s1)) as Hraise.
  { unfold App.detect_try. fold p.
    rewrite (run_bind_ok _ _ _ () (Machine (fs s) (heap s) (<["filepath" := p]> ∅) (log s)))
      by done.
    rewrite (run_bind_ok _ _ _ p (Machine (fs s) (heap s) (<["filepath" := p]> ∅) (log s)))
      by (apply run_var; apply lookup_insert_eq).
    rewrite (run_bind_ok _ _ _ () s1) by (by apply run_file_save).
    rewrite (run_bind_raise _ _ _ e s1); [done|].
    rewrite Hfield. unfold App.confidence_of, lift. by rewrite Hfloat. }
  destruct (cleanup_after_failure s1 p (App.content file))
    as (s2 & tail & Hclean & Hlog & Hheap & Hfiles).
  { apply lookup_insert_eq. }
  { apply lookup_insert_eq. }
  assert (locals s1 !! "output_path" = None) as Hout.
  { simpl. by rewrite lookup_insert_ne. }
  rewrite Hout in Hfiles.
  assert (tail = [] ∧
          fs s2 = match remove_error p with
                  | Some _ => <[p := App.content file]> (fs s)
                  | None => delete p (fs s)
                  end) as [-> Hfs].
  { destruct (remove_error p); [by destruct Hfiles|].
    destruct Hfiles as (_ & -> & ->). split; [done|]. apply delete_insert_eq. }
  exists s2. split; [|split; [|done]].
  - rewrite (detect_valid _ _ file) by done.
    unfold try_except at 1. rewrite Hraise. unfold App.detect_except.
    by rewrite (run_bind_ok _ _ _ () s2 Hclean).
  - rewrite Hlog. simpl. by rewrite <- app_assoc.
Qed.

End upload_route.

(** ** Examples on the sample environment *)

Example allowed_file_examples :
  App.allowed_file "photo.PNG" = true ∧
  App.allowed_file "scan.tar.jpeg" = true ∧
  App.allowed_file "notes.txt" = false ∧
  App.allowed_file "png" = false ∧
  App.allowed_file "photo.png." = false.
Proof. repeat split; vm_compute; reflexivity. Qed.

Example b64decode_examples :
  b64decode "aGVsbG8=" = Ok [Byte.x68; Byte.x65; Byte.x6c; Byte.x6c; Byte.x6f] ∧
  b64decode "aGVs,bG8=" = Ok [Byte.x68; Byte.x65; Byte.x6c; Byte.x6c; Byte.x6f] ∧
  b64decode "aGVsbG8" = Raise (Exn "binascii.Error" "Incorrect padding") ∧
  b64encode [Byte.x68; Byte.x65; Byte.x6c; Byte.x6c; Byte.x6f] = "aGVsbG8=".
Proof. repeat split; vm_compute; reflexivity. Qed.

(** Two detections of the same class. *)
Example get_statistics_two_plastic :
  Detector.get_statistics (H := Sample.plain)
    [ Sample.detection "plastic" (9 # 10) (1, 1, 4, 3);
      Sample.detection "plastic" (1 # 2) (0, 0, 2, 2) ]
  = {| Detector.total_items := 2; Detector.categories := {[ "plastic" := 2%nat ]} |}.
Proof. vm_compute. reflexivity. Qed.

Example get_statistics_empty :
  Detector.get_statistics (H := Sample.plain) []
  = {| Detector.total_items := 0; Detector.categories := ∅ |}.
Proof. reflexivity. Qed.

(** A successful upload: the calls made, and the answer. *)
Example detect_upload_succeeds :
  let run := App.detect (H := Sample.plain) (Some Sample.detector)
               {| App.files_file := Some (Sample.upload "a.jpg");
                  App.form_confidence := Some "0.5" |} Sample.empty_machine in
  (App.status <$> match run.1 with Ok r => Some r | Raise _ => None end) = Some 200%nat ∧
  log run.2 = [FileSave "static/uploads/1700000000000_a.jpg";
               Imread "static/uploads/1700000000000_a.jpg";
               Predict;
               Imwrite "static/uploads/detected_1700000000000_a.jpg"].
Proof. split; vm_compute; reflexivity. Qed.

(** When removing the upload fails, the answer is the same and the upload
    stays. *)
Example detect_cleanup_failure_is_swallowed :
  let run := App.detect (H := Sample.env true Written) (Some Sample.detector)
               {| App.files_file := Some (Sample.upload "a.jpg");
                  App.form_confidence := Some "abc" |} Sample.empty_machine in
  run.1 = Ok (App.Response 500
                (App.Failure "Detection failed: could not convert string to float: 'abc'")) ∧
  is_Some (fs run.2 !! "static/uploads/1700000000000_a.jpg").
Proof. split; [vm_compute; reflexivity|]. vm_compute. eexists. reflexivity. Qed.

(** C7, as stated, fails. For the box of the sample model, whose top edge
    is at [y1 = 1], and its label, 14 pixels high, the filled rectangle of
    the label background is called with its top at [-23]. *)
Lemma label_background_above_the_image :
  Detector.annotate_box_on (H := Sample.plain) recorder Sample.detector
    Sample.camera_frame Sample.box Sample.camera_machine
  = (Ok (Sample.detection "plastic" (9 # 10) (1, 1, 4, 3)),
     Machine ∅ {[ Sample.camera_frame := Sample.image ]} ∅
       [CvRectangle Sample.camera_frame (Rect 1 1 4 3) (0, 255, 255) 2;
        CvRectangle Sample.camera_frame (Rect 1 (-23) 154 1) (0, 255, 255) (-1);
        CvPutText Sample.camera_frame "plastic: 0.90" (6, -4) (0, 0, 0)]).
Proof. vm_compute. reflexivity. Qed.

(** C7 on the camera frame: the array keeps its shape, and of the label
    background the rows 0 and 1 are painted; here the pixel in row 0,
    column 2. *)
Lemma label_background_is_clipped_not_clamped_camera :
  ∃ d s' out,
    Detector.annotate_box (H := Sample.plain) Sample.detector Sample.camera_frame
      Sample.box Sample.camera_machine = (Ok d, s') ∧
    heap s' !! Sample.camera_frame = Some out ∧
    shape out = shape Sample.image ∧
    pixel_at out 0 2 = Some (0, 255, 255).
Proof.
  destruct (label_background_is_clipped_not_clamped (H := Sample.plain) Sample.detector
              Sample.camera_frame Sample.box Sample.camera_machine Sample.image "plastic"
              (3 # 2) (1 # 1) (9 # 2) (3 # 1) 143 14 6)
    as (color & label & top & -> & -> & -> & _ & _ & d & s' & out & Hrun & Hout
        & Hshape & Hpixels).
  - vm_compute. reflexivity.
  - vm_compute. reflexivity.
  - reflexivity.
  - vm_compute. reflexivity.
  - exists d, s', out. split; [exact Hrun|]. split; [exact Hout|].
    split; [exact Hshape|]. rewrite (Hpixels 0%nat 2%nat).
    + vm_compute. reflexivity.
    + apply (bool_decide_unpack _). vm_compute. reflexivity.
    + apply (bool_decide_unpack _). vm_compute. reflexivity.
Defined.

(** C4, as stated, fails. With the detector loaded, a POST that has no
    file part and whose body is one byte longer than the limit is not
    answered 400: reading [request.files] raises, and the handler for 413
    answers. *)
Lemma oversized_upload_is_answered_413 :
  App.detect_post (H := Sample.plain) (Some Sample.detector)
    (Sample.post_of (16 * 1024 * 1024 + 1) None) Sample.empty_machine
  = (Raise (Exn "RequestEntityTooLarge"
              "413 Request Entity Too Large: The data value transmitted exceeds the capacity limit."),
     Sample.empty_machine) ∧
  App.serve_detect (H := Sample.plain) (Some Sample.detector)
    (Sample.post_of (16 * 1024 * 1024 + 1) None) Sample.empty_machine
  = (Ok (App.Response 413 (App.Failure "File is too large. Maximum size is 16MB")),
     Sample.empty_machine).
Proof. split; vm_compute; reflexivity. Qed.

(** C4 on a [.txt] upload of four bytes. *)
Lemma invalid_upload_is_rejected_txt :
  ∃ message names,
    App.serve_detect (H := Sample.plain) (Some Sample.detector)
      (Sample.post_of 4 (Some (Sample.upload "notes.txt"))) Sample.empty_machine
    = (Ok (App.Response 400 (App.Failure message)), Sample.empty_machine) ∧
    message = "Invalid file type. Allowed types: " +:+ str_join ", " names ∧
    names ≡ₚ ["png"; "jpg"; "jpeg"; "bmp"; "webp"].
Proof.
  destruct (invalid_upload_is_rejected (H := Sample.plain) Sample.detector
              (Sample.post_of 4 (Some (Sample.upload "notes.txt"))) Sample.empty_machine)
    as (message & _ & Hrun & Hmessage).
  - vm_compute. discriminate.
  - reflexivity.
  - right. exists (Sample.upload "notes.txt"). split; [reflexivity|].
    right. vm_compute. reflexivity.
  - cbn [Sample.post_of App.form App.files_file] in Hmessage.
    destruct (decide (App.filename (Sample.upload "notes.txt") = "")) as [Hempty|_];
      [discriminate Hempty|].
    destruct Hmessage as (names & Hmessage & Hnames).
    exists message, names. split; [exact Hrun|]. split; [exact Hmessage | exact Hnames].
Defined.


(** C2 on an upload that is not an image: [detect_image] raises, the
    answer is 500 with its message, and the upload is removed again. *)
Lemma detect_failure_is_reported_after_cleanup_unreadable :
  ∃ s2,
    App.detect (H := Sample.plain) (Some Sample.detector)
      {| App.files_file := Some (Sample.empty_upload "empty.jpg");
         App.form_confidence := None |} Sample.empty_machine
    = (Ok (App.Response 500
             (App.Failure
                "Detection failed: Could not read image at static/uploads/1700000000000_empty.jpg")),
       s2) ∧
    fs s2 !! "static/uploads/1700000000000_empty.jpg" = None.
Proof.
  pose (request := {| App.files_file := Some (Sample.empty_upload "empty.jpg");
                      App.form_confidence := None |}).
  pose (e := Exn "ValueError"
               "Could not read image at static/uploads/1700000000000_empty.jpg").
  pose (run := App.detect_try (H := Sample.plain) Sample.detector (Sample.empty_upload "empty.jpg")
                 None (Machine ∅ ∅ ∅ [])).
  destruct (detect_failure_is_reported_after_cleanup (H := Sample.plain) Sample.detector request
              (Sample.empty_upload "empty.jpg") Sample.empty_machine e run.2)
    as (s2 & tail & Hrun & _ & _ & Hfiles).
  - reflexivity.
  - discriminate.
  - vm_compute. reflexivity.
  - reflexivity.
  - vm_compute. reflexivity.
  - exists s2. split; [exact Hrun|]. exact (proj1 Hfiles).
Defined.

(** C10 on the confidence ["abc"]. *)
Lemma non_numeric_confidence_is_reported_as_500_abc :
  ∃ s2,
    App.detect (H := Sample.plain) (Some Sample.detector)
      {| App.files_file := Some (Sample.upload "a.jpg");
         App.form_confidence := Some "abc" |} Sample.empty_machine
    = (Ok (App.Response 500
             (App.Failure "Detection failed: could not convert string to float: 'abc'")),
       s2) ∧
    log s2 = [FileSave "static/uploads/1700000000000_a.jpg";
              PathExists "static/uploads/1700000000000_a.jpg";
              OsRemove "static/uploads/1700000000000_a.jpg"] ∧
    fs s2 = ∅.
Proof.
  destruct (non_numeric_confidence_is_reported_as_500 (H := Sample.plain) Sample.detector
              {| App.files_file := Some (Sample.upload "a.jpg");
                 App.form_confidence := Some "abc" |}
              (Sample.upload "a.jpg") "abc"
              (Exn "ValueError" "could not convert string to float: 'abc'")
              Sample.empty_machine)
    as (s2 & Hrun & Hlog & _ & Hfs).
  - reflexivity.
  - discriminate.
  - vm_compute. reflexivity.
  - reflexivity.
  - reflexivity.
  - reflexivity.
  - exists s2. split; [exact Hrun|]. split; [exact Hlog|].
    rewrite Hfs. apply delete_empty.
Defined.

(** * Further properties *)

(** ** More about the statistics *)

Section statistics_more.
Context `{Env}.
Implicit Types (d : Detector.Detection) (detections : list Detector.Detection)
  (c : string).

Lemma categories_lookup detections c :
  Detector.categories (Detector.get_statistics detections) !! c =
    if decide (Detector.class_count c detections = 0%nat) then None
    else Some (Detector.class_count c detections).
Proof.
  simpl. rewrite foldl_count_lookup, lookup_empty.
  destruct (Detector.class_count c detections); simpl; [done|]. f_equal. lia.
Qed.

Lemma class_count_app c detections1 detections2 :
  Detector.class_count c (detections1 ++ detections2) =
    (Detector.class_count c detections1 + Detector.class_count c detections2)%nat.
Proof. unfold Detector.class_count. by rewrite filter_app, length_app. Qed.

Lemma class_count_le c detections :
  (Detector.class_count c detections ≤ length detections)%nat.
Proof. unfold Detector.class_count. apply length_filter. Qed.

Lemma class_count_pos c detections :
  Detector.class_count c detections ≠ 0%nat ↔ c ∈ Detector.d_class <$> detections.
Proof.
  unfold Detector.class_count. rewrite list_elem_of_fmap. split.
  - intros Hcount.
    destruct (filter (λ d, Detector.d_class d = c) detections) as [|d ds] eqn:Hfilter;
      [done|].
    assert (d ∈ filter (λ d, Detector.d_class d = c) detections) as Hd
      by (rewrite Hfilter; left).
    apply list_elem_of_filter in Hd as [Hc Hd]. by exists d.
  - intros (d & -> & Hd) Hcount.
    assert (d ∈ filter (λ d', Detector.d_class d' = Detector.d_class d) detections) as Hin
      by by apply list_elem_of_filter.
    apply length_zero_iff_nil in Hcount. rewrite Hcount in Hin. by inversion Hin.
Qed.

(** X1. The statistics do not depend on the order of the detections: two
    lists that are permutations of each other give the same record. *)
Theorem get_statistics_permutation detections detections' :
  detections ≡ₚ detections' →
  Detector.get_statistics detections = Detector.get_statistics detections'.
Proof.
  intros Hperm.
  assert (Detector.categories (Detector.get_statistics detections)
          = Detector.categories (Detector.get_statistics detections')) as Hcats.
  { apply map_eq. intros c. rewrite !categories_lookup.
    assert (Detector.class_count c detections = Detector.class_count c detections')
      as ->; [|done].
    unfold Detector.class_count. apply Permutation_length.
    by apply filter_Permutation. }
  unfold Detector.get_statistics in *. simpl in Hcats. rewrite Hcats.
  by rewrite (Permutation_length Hperm).
Qed.

(** X2. The statistics of two lists put end to end are the sum of their
    statistics: the totals add up, and so do the counts, category by
    category (a category of one list only keeps its count). *)
Theorem get_statistics_app detections1 detections2 :
  Detector.total_items (Detector.get_statistics (detections1 ++ detections2)) =
    (Detector.total_items (Detector.get_statistics detections1) +
     Detector.total_items (Detector.get_statistics detections2))%nat ∧
  Detector.categories (Detector.get_statistics (detections1 ++ detections2)) =
    union_with (λ n1 n2, Some (n1 + n2)%nat)
      (Detector.categories (Detector.get_statistics detections1))
      (Detector.categories (Detector.get_statistics detections2)).
Proof.
  split; [simpl; apply length_app|].
  apply map_eq. intros c.
  rewrite lookup_union_with, !categories_lookup, class_count_app.
  destruct (Detector.class_count c detections1), (Detector.class_count c detections2);
    simpl; repeat case_decide; simpl; try done; try lia; f_equal; lia.
Qed.

(** X3. The categories of the statistics are exactly the classes that
    occur among the detections; every count is at least 1 and at most
    [total_items]; and there are at most [total_items] categories. *)
Theorem get_statistics_categories detections :
  dom (Detector.categories (Detector.get_statistics detections))
    = list_to_set (Detector.d_class <$> detections) ∧
  (∀ c n, Detector.categories (Detector.get_statistics detections) !! c = Some n →
          (1 ≤ n ≤ Detector.total_items (Detector.get_statistics detections))%nat) ∧
  (size (Detector.categories (Detector.get_statistics detections))
     ≤ Detector.total_items (Detector.get_statistics detections))%nat.
Proof.
  assert (dom (Detector.categories (Detector.get_statistics detections))
          = list_to_set (Detector.d_class <$> detections)) as Hdom.
  { apply set_eq. intros c.
    rewrite elem_of_dom, categories_lookup, elem_of_list_to_set, <- class_count_pos.
    case_decide as Hc; split; intros Hx; try done.
    all: try (by destruct Hx). all: by eexists. }
  split; [done|]. split.
  - intros c n. rewrite categories_lookup. case_decide as Hc; [done|].
    intros [= <-]. pose proof (class_count_le c detections). simpl. lia.
  - rewrite <- size_dom, Hdom. simpl.
    rewrite <- (length_fmap Detector.d_class detections).
    generalize (Detector.d_class <$> detections). intros classes.
    induction classes as [|c classes IH]; [done|].
    simpl. rewrite size_union_alt, size_singleton.
    assert (size (list_to_set classes ∖ {[c]} : gset string)
            ≤ size (list_to_set classes : gset string))%nat
      by (apply subseteq_size; intros x; rewrite elem_of_difference; tauto).
    lia.
Qed.

End statistics_more.

(** ** The annotation loop, run *)

Section annotation_run.
Context `{Env}.
Implicit Types (self : Detector.WasteDetector) (img : raster) (l : loc)
  (box : raw_box float) (boxes : list (raw_box float)) (s : machine).

(** X4. When the model returns boxes whose classes the table of names
    knows, [detect_frame] returns one detection per box, in the order of
    the boxes: its class is the name of the box's class index, its
    confidence the box's confidence rounded to four places, and its bbox the
    four corners truncated to integers. *)
Theorem detect_frame_detections_follow_boxes self frame conf s img results :
  heap s !! frame = Some img →
  predict img conf = Ok results →
  Forall (λ box, is_Some (Detector.class_names self !! int_of_Q (box_cls box)))
         (concat results) →
  ∃ annotated detections s',
    Detector.detect_frame self frame conf s = (Ok (annotated, detections), s') ∧
    Forall2 (λ box d,
               Detector.class_names self !! int_of_Q (box_cls box)
                 = Some (Detector.d_class d) ∧
               Detector.d_confidence d = round4 (box_conf box) ∧
               Detector.d_bbox d =
                 (int_of_Q (xyxy box).1.1.1, int_of_Q (xyxy box).1.1.2,
                  int_of_Q (xyxy box).1.2, int_of_Q (xyxy box).2))
            (concat results) detections.
Proof.
  intros Himg Hpredict Hknown. unfold Detector.detect_frame.
  rewrite (predict_and_annotate_run _ _ _ _ img results) by done.
  destruct (annotate_all_known self (concat results) img Hknown)
    as (detections & -> & Hall).
  eexists _, detections, _. split; [reflexivity|].
  eapply Forall2_impl; [exact Hall|].
  intros box d [Hname Hd]. split; [done|].
  unfold Rendering.detection_of in Hd.
  destruct (xyxy box) as [[[bx1 by1] bx2] by2]. by rewrite Hd.
Qed.

(** X5. A box whose class index the table of names lacks makes
    [detect_frame] raise [KeyError] on that index, at the first such box;
    the frame passed in is still as it was. *)
Theorem detect_frame_unknown_class_raises self frame conf s img results known bad rest :
  heap s !! frame = Some img →
  predict img conf = Ok results →
  concat results = known ++ bad :: rest →
  Forall (λ box, is_Some (Detector.class_names self !! int_of_Q (box_cls box))) known →
  Detector.class_names self !! int_of_Q (box_cls bad) = None →
  ∃ s',
    Detector.detect_frame self frame conf s =
      (Raise (Exn "KeyError" (pretty (int_of_Q (box_cls bad)))), s') ∧
    heap s' !! frame = Some img.
Proof.
  intros Himg Hpredict Hsplit Hknown Hbad. unfold Detector.detect_frame.
  rewrite (predict_and_annotate_run _ _ _ _ img results) by done.
  rewrite Hsplit, annotate_all_unknown by done.
  eexists. split; [done|]. simpl. rewrite lookup_insert_ne; [done|].
  intros Heq. pose proof (is_fresh (dom (heap s))) as Hfresh.
  rewrite Heq in Hfresh. apply Hfresh, elem_of_dom. by eexists.
Qed.

(** X6. When the model reports no box, [detect_frame] returns an empty
    list of detections and an array that holds the input image, pixel for
    pixel. *)
Theorem detect_frame_without_boxes self frame conf s img results :
  heap s !! frame = Some img →
  predict img conf = Ok results →
  concat results = [] →
  ∃ annotated s',
    Detector.detect_frame self frame conf s = (Ok (annotated, []), s') ∧
    annotated ≠ frame ∧
    heap s' !! annotated = Some img.
Proof.
  intros Himg Hpredict Hnone. unfold Detector.detect_frame.
  rewrite (predict_and_annotate_run _ _ _ _ img results) by done.
  rewrite Hnone. simpl. eexists _, _. split; [done|]. split.
  - intros Heq. pose proof (is_fresh (dom (heap s))) as Hfresh.
    rewrite Heq in Hfresh. apply Hfresh, elem_of_dom. by eexists.
  - simpl. by rewrite lookup_insert_eq.
Qed.

(** X7. One round of the annotation loop, for a box of a known class, on
    an array that holds [img]: the three drawing calls are layered. A pixel
    of the image under a glyph of the label becomes black; otherwise a
    pixel in the label background or on the outline takes the colour of the
    class; every other pixel is as it was. The colour is the one the table
    has for the lower-case class name, or the default. *)
Theorem annotate_box_layers self l box s img class_name :
  heap s !! l = Some img →
  Detector.class_names self !! int_of_Q (box_cls box) = Some class_name →
  ∃ d s' out,
    Detector.annotate_box self l box s = (Ok d, s') ∧
    heap s' !! l = Some out ∧
    ∀ i j : nat,
      pixel_at out i j =
        if decide ((Z.of_nat j, Z.of_nat i) ∈ Rendering.glyph_points class_name box)
        then (λ _, (0, 0, 0)) <$> pixel_at img i j
        else if decide ((Z.of_nat j, Z.of_nat i)
                          ∈ Rendering.background_points class_name box
                        ∨ (Z.of_nat j, Z.of_nat i) ∈ Rendering.outline_points box)
        then (λ _, default (Detector.default_color self)
                     (Detector.colors self !! str_lower class_name))
               <$> pixel_at img i j
        else pixel_at img i j.
Proof.
  intros Himg Hname. rewrite (annotate_box_run _ _ _ _ img Himg), Hname.
  eexists _, _, _. split; [done|]. split; [simpl; apply lookup_insert_eq|].
  intros i j. apply render_box_at.
Qed.

(** X8. Annotation is local: in the array that [detect_frame] returns, a
    pixel that lies on the outline of no box, and in the label background
    and under the label text of no box, each box being labelled with the
    name of its own class, is the pixel of the input. *)
Theorem detect_frame_keeps_pixels_outside self frame conf s img results (i j : nat) :
  heap s !! frame = Some img →
  predict img conf = Ok results →
  (∀ box class_name, box ∈ concat results →
     Detector.class_names self !! int_of_Q (box_cls box) = Some class_name →
     ((Z.of_nat j, Z.of_nat i) ∉ Rendering.outline_points box) ∧
     ((Z.of_nat j, Z.of_nat i) ∉ Rendering.background_points class_name box) ∧
     ((Z.of_nat j, Z.of_nat i) ∉ Rendering.glyph_points class_name box)) →
  ∀ annotated detections s',
    Detector.detect_frame self frame conf s = (Ok (annotated, detections), s') →
    ∃ out, heap s' !! annotated = Some out ∧ pixel_at out i j = pixel_at img i j.
Proof.
  intros Himg Hpredict Hout annotated detections s'. unfold Detector.detect_frame.
  rewrite (predict_and_annotate_run _ _ _ _ img results) by done.
  destruct (Rendering.annotate_all self (concat results) img) as [r out] eqn:Hrun.
  simpl. destruct r as [detections'|e]; [|done]. intros [= <- <- <-].
  exists out. split; [simpl; apply lookup_insert_eq|].
  pose proof (annotate_all_outside self (concat results) img i j Hout) as Hpixel.
  by rewrite Hrun in Hpixel.
Qed.

End annotation_run.

(** ** The upload route, run *)

Section upload_run.
Context `{Env}.
Implicit Types (detector : Detector.WasteDetector) (s : machine)
  (file : App.FileStorage) (request : App.upload_request) (img : raster).

Lemma run_imwrite path l s img :
  heap s !! l = Some img →
  imwrite path l s =
    match imwrite_outcome path img with
    | WriteError e =>
        (Raise e, Machine (fs s) (heap s) (locals s) (log s ++ [Imwrite path]))
    | NotWritten =>
        (Ok false, Machine (fs s) (heap s) (locals s) (log s ++ [Imwrite path]))
    | Written =>
        (Ok true, Machine (<[path := file_encoding path img]> (fs s)) (heap s)
                          (locals s) (log s ++ [Imwrite path]))
    end.
Proof.
  intros Himg. unfold imwrite.
  set (s1 := Machine (fs s) (heap s) (locals s) (log s ++ [Imwrite path])).
  rewrite (run_bind_ok _ _ _ () s1) by done.
  rewrite (run_bind_ok _ _ _ img s1) by (unfold read_array; simpl; by rewrite Himg).
  destruct (imwrite_outcome path img); try done.
Qed.

Lemma string_length_app (a b : string) :
  String.length (a +:+ b) = (String.length a + String.length b)%nat.
Proof.
  induction a as [|c a IH]; [done|].
  change (String c a +:+ b) with (String c (a +:+ b)). simpl. by rewrite IH.
Qed.

(** The two paths of a request differ: the output never takes the place
    of the upload. *)
Lemma upload_path_ne_detected_path file :
  App.upload_path file ≠ App.detected_path file.
Proof.
  unfold App.upload_path, App.detected_path, path_join.
  intros Heq. apply (f_equal String.length) in Heq.
  rewrite !string_length_app in Heq. simpl in Heq. lia.
Qed.

Lemma run_confidence_of (field : option string) s :
  App.confidence_of field s =
    (match field with None => Ok default_confidence | Some text => float_of_str text end,
     s).
Proof. by destruct field. Qed.

(** The [try] block of [/detect], run from the start of the handler, for an
    upload that is saved and read, a confidence that converts, and a model
    that answers. *)
Lemma detect_try_run detector file field (files : gmap string bytes)
    (arrays : gmap loc raster) (calls : list event) conf img results :
  save_error (App.upload_path file) = None →
  match field with None => Ok default_confidence | Some text => float_of_str text end
    = Ok conf →
  imread_decode (App.content file) = Some img →
  predict img conf = Ok results →
  let p := App.upload_path file in
  let out := App.detected_path file in
  let image := fresh (dom arrays) in
  let annotated := fresh (dom (<[image := img]> arrays)) in
  let rendered := (Rendering.annotate_all detector (concat results) img).2 in
  let arrays1 := <[annotated := rendered]> (<[image := img]> arrays) in
  let calls1 := calls ++ [FileSave p; Imread p; Predict] in
  let locals1 := <["output_path" := out]> (<["filepath" := p]> (∅ : gmap string string)) in
  App.detect_try detector file field (Machine files arrays ∅ calls) =
    match (Rendering.annotate_all detector (concat results) img).1 with
    | Raise e =>
        (Raise e, Machine (<[p := App.content file]> files) arrays1
                          (<["filepath" := p]> ∅) calls1)
    | Ok detections =>
        let response :=
          App.Response 200
            (App.UploadResult
               ("/" +:+ App.UPLOAD_FOLDER +:+ "/" +:+ App.stored_name file)
               ("/" +:+ App.UPLOAD_FOLDER +:+ "/" +:+ ("detected_" +:+ App.stored_name file))
               detections (Detector.get_statistics detections) conf) in
        match imwrite_outcome out rendered with
        | WriteError e =>
            (Raise e, Machine (<[p := App.content file]> files) arrays1 locals1
                              (calls1 ++ [Imwrite out]))
        | NotWritten =>
            (Ok response, Machine (<[p := App.content file]> files) arrays1 locals1
                                  (calls1 ++ [Imwrite out]))
        | Written =>
            (Ok response,
             Machine (<[out := file_encoding out rendered]> (<[p := App.content file]> files))
                     arrays1 locals1 (calls1 ++ [Imwrite out]))
        end
    end.
Proof.
  intros Hsave Hconf Himg Hpredict p out image annotated rendered arrays1 calls1 locals1.
  unfold App.detect_try.
  fold (App.upload_path file). fold (App.detected_path file). fold p. fold out.
  set (sA := Machine files arrays (<["filepath" := p]> ∅) calls).
  rewrite (run_bind_ok _ _ _ () sA) by done.
  rewrite (run_bind_ok _ _ _ p sA) by (apply run_var; apply lookup_insert_eq).
  set (sB := Machine (<[p := App.content file]> files) arrays
                     (<["filepath" := p]> ∅) (calls ++ [FileSave p])).
  rewrite (run_bind_ok _ _ _ () sB) by (by apply run_file_save).
  rewrite (run_bind_ok _ _ _ conf sB) by (by rewrite run_confidence_of, Hconf).
  set (sC := Machine (<[p := App.content file]> files) (<[image := img]> arrays)
                     (<["filepath" := p]> ∅) ((calls ++ [FileSave p]) ++ [Imread p])).
  assert (Detector.detect_image detector p conf sB =
          (match (Rendering.annotate_all detector (concat results) img).1 with
           | Ok detections => Ok (annotated, detections)
           | Raise e => Raise e
           end,
           Machine (<[p := App.content file]> files) arrays1 (<["filepath" := p]> ∅)
                   calls1)) as Hdetect.
  { unfold Detector.detect_image.
    rewrite (run_bind_ok _ _ _ (Some image) sC).
    2:{ apply (run_imread p sB (App.content file) img); [|done].
        simpl. apply lookup_insert_eq. }
    rewrite (predict_and_annotate_run _ _ _ _ img results);
      [|simpl; apply lookup_insert_eq|done].
    subst calls1. simpl. by rewrite <- !app_assoc. }
  rewrite run_bind, Hdetect.
  destruct (Rendering.annotate_all detector (concat results) img).1 as [detections|e];
    [|done].
  set (sD := Machine (<[p := App.content file]> files) arrays1 (<["filepath" := p]> ∅)
                     calls1).
  set (sE := Machine (<[p := App.content file]> files) arrays1 locals1 calls1).
  rewrite (run_bind_ok _ _ _ () sE) by done.
  rewrite (run_bind_ok _ _ _ out sE) by (apply run_var; apply lookup_insert_eq).
  rewrite run_bind, (run_imwrite out annotated sE rendered)
    by (simpl; apply lookup_insert_eq).
  by destruct (imwrite_outcome out rendered).
Qed.

(** X9. The successful upload. For a valid request whose upload is saved
    and decodes as an image, whose confidence converts (or is absent), whose
    boxes are all of known classes, and whose annotated image [imwrite]
    does not raise on: the answer is 200; the two URLs are the two paths
    with a leading slash; there is one detection per box, the statistics
    are those of the detections and the threshold is echoed; the calls made
    are the saving, the reading, the inference and the writing, in this
    order; the upload is on disk, and the output file is written exactly when
    [imwrite] says so. *)
Theorem detect_success detector request file s conf img results :
  App.files_file request = Some file →
  App.filename file ≠ "" →
  App.allowed_file (App.filename file) = true →
  save_error (App.upload_path file) = None →
  match App.form_confidence request with
  | None => Ok default_confidence
  | Some text => float_of_str text
  end = Ok conf →
  imread_decode (App.content file) = Some img →
  predict img conf = Ok results →
  Forall (λ box, is_Some (Detector.class_names detector !! int_of_Q (box_cls box)))
         (concat results) →
  (∀ e, imwrite_outcome (App.detected_path file)
          (Rendering.annotate_all detector (concat results) img).2 ≠ WriteError e) →
  ∃ detections s',
    App.detect (Some detector) request s =
      (Ok (App.Response 200
             (App.UploadResult ("/" +:+ App.upload_path file)
                               ("/" +:+ App.detected_path file)
                               detections (Detector.get_statistics detections) conf)),
       s') ∧
    length detections = length (concat results) ∧
    log s' = log s ++ [FileSave (App.upload_path file); Imread (App.upload_path file);
                       Predict; Imwrite (App.detected_path file)] ∧
    fs s' !! App.upload_path file = Some (App.content file) ∧
    fs s' =
      match imwrite_outcome (App.detected_path file)
              (Rendering.annotate_all detector (concat results) img).2 with
      | Written =>
          <[App.detected_path file :=
              file_encoding (App.detected_path file)
                (Rendering.annotate_all detector (concat results) img).2]>
            (<[App.upload_path file := App.content file]> (fs s))
      | _ => <[App.upload_path file := App.content file]> (fs s)
      end.
Proof.
  intros Hfile Hname Hallowed Hsave Hconf Himg Hpredict Hknown Hwrite.
  rewrite (detect_valid _ _ file) by done. unfold try_except.
  rewrite (detect_try_run _ _ _ _ _ _ conf img results) by done. cbv zeta.
  destruct (annotate_all_known detector (concat results) img Hknown)
    as (detections & -> & Hall).
  exists detections.
  destruct (imwrite_outcome _ _) as [| |e] eqn:Houtcome.
  - eexists. split; [reflexivity|]. simpl.
    split; [symmetry; by eapply Forall2_length|].
    split; [by rewrite <- !app_assoc|]. split; [|done].
    rewrite lookup_insert_ne by (symmetry; apply upload_path_ne_detected_path).
    apply lookup_insert_eq.
  - eexists. split; [reflexivity|]. simpl.
    split; [symmetry; by eapply Forall2_length|].
    split; [by rewrite <- !app_assoc|]. split; [|done]. apply lookup_insert_eq.
  - by destruct (Hwrite e).
Qed.

(** X10. The route does not look at what [imwrite] returns. When [imwrite]
    returns [False] on an otherwise successful request, the answer is still
    200 and its [detected_image] names the output path, but no file is
    there (unless one was there before the request). *)
Theorem detect_answers_200_without_output_file detector request file s conf img results :
  App.files_file request = Some file →
  App.filename file ≠ "" →
  App.allowed_file (App.filename file) = true →
  save_error (App.upload_path file) = None →
  match App.form_confidence request with
  | None => Ok default_confidence
  | Some text => float_of_str text
  end = Ok conf →
  imread_decode (App.content file) = Some img →
  predict img conf = Ok results →
  Forall (λ box, is_Some (Detector.class_names detector !! int_of_Q (box_cls box)))
         (concat results) →
  imwrite_outcome (App.detected_path file)
    (Rendering.annotate_all detector (concat results) img).2 = NotWritten →
  fs s !! App.detected_path file = None →
  ∃ original detections statistics s',
    App.detect (Some detector) request s =
      (Ok (App.Response 200
             (App.UploadResult original ("/" +:+ App.detected_path file)
                               detections statistics conf)), s') ∧
    fs s' !! App.detected_path file = None.
Proof.
  intros Hfile Hname Hallowed Hsave Hconf Himg Hpredict Hknown Hwrite Hfree.
  rewrite (detect_valid _ _ file) by done. unfold try_except.
  rewrite (detect_try_run _ _ _ _ _ _ conf img results) by done. cbv zeta.
  destruct (annotate_all_known detector (concat results) img Hknown)
    as (detections & -> & _).
  rewrite Hwrite. eexists _, _, _, _. split; [reflexivity|]. simpl.
  rewrite lookup_insert_ne by apply upload_path_ne_detected_path. done.
Qed.

Lemma detect_except_answers e s :
  ∃ s', App.detect_except e s =
          (Ok (App.Response 500 (App.Failure ("Detection failed: " +:+ exn_str e))), s').
Proof.
  unfold App.detect_except. rewrite run_bind. unfold try_except.
  destruct (App.remove_files s) as [[[]|e'] s']; by eexists.
Qed.

(** A [try] block of [/detect] that returns has saved the upload, and
    returns a 200. *)
Lemma detect_try_ok detector file field (files : gmap string bytes)
    (arrays : gmap loc raster) (calls : list event) r s1 :
  App.detect_try detector file field (Machine files arrays ∅ calls) = (Ok r, s1) →
  App.status r = 200%nat ∧ is_Some (fs s1 !! App.upload_path file).
Proof.
  intros Hrun. unfold App.detect_try in Hrun.
  fold (App.upload_path file) in Hrun. fold (App.detected_path file) in Hrun.
  set (p := App.upload_path file) in *.
  set (sA := Machine files arrays (<["filepath" := p]> ∅) calls).
  rewrite (run_bind_ok _ _ _ () sA) in Hrun by done.
  rewrite (run_bind_ok _ _ _ p sA) in Hrun by (apply run_var; apply lookup_insert_eq).
  rewrite run_bind in Hrun. unfold file_save in Hrun.
  rewrite (run_bind_ok _ _ _ ()
             (Machine files arrays (<["filepath" := p]> ∅) (calls ++ [FileSave p])))
    in Hrun by done.
  destruct (save_error p) as [e|]; [done|]. simpl in Hrun.
  set (sB := Machine (<[p := App.content file]> files) arrays
                     (<["filepath" := p]> ∅) (calls ++ [FileSave p])) in Hrun.
  rewrite run_bind in Hrun.
  pose proof (confidence_of_state field sB) as Hconf.
  destruct (App.confidence_of field sB) as [[conf|e0] sB']; simpl in Hconf; subst sB';
    [|done].
  rewrite run_bind in Hrun.
  pose proof (detect_image_keeps_files detector p conf sB) as [HfC HlC].
  destruct (Detector.detect_image detector p conf sB) as [[[annotated dets]|e1] sC];
    simpl in HfC, HlC; [|done].
  set (sD := Machine (fs sC) (heap sC) (<["output_path" := App.detected_path file]> (locals sC))
                     (log sC)).
  rewrite (run_bind_ok _ _ _ () sD) in Hrun by done.
  rewrite (run_bind_ok _ _ _ (App.detected_path file) sD) in Hrun
    by (apply run_var; apply lookup_insert_eq).
  rewrite run_bind in Hrun. unfold imwrite in Hrun.
  set (sE := Machine (fs sC) (heap sC) (locals sD)
                     (log sC ++ [Imwrite (App.detected_path file)])).
  rewrite (run_bind_ok _ _ _ () sE) in Hrun by done.
  rewrite run_bind in Hrun. unfold read_array in Hrun.
  destruct (heap sE !! annotated) as [img|]; [|done].
  destruct (imwrite_outcome (App.detected_path file) img) as [| |e2]; [| |done].
  - injection Hrun as <- <-. split; [done|]. simpl.
    apply lookup_insert_is_Some'. right. rewrite HfC. simpl.
    rewrite lookup_insert_eq. by eexists.
  - injection Hrun as <- <-. split; [done|]. simpl. rewrite HfC. simpl.
    rewrite lookup_insert_eq. by eexists.
Qed.

(** Once the form has been read, the view returns a response, whose status
    is 200, 400 or 500. *)
Lemma detect_answers (handle : option Detector.WasteDetector) request s :
  ∃ response s',
    App.detect handle request s = (Ok response, s') ∧
    (App.status response = 200%nat ∨ App.status response = 400%nat
     ∨ App.status response = 500%nat) ∧
    (App.status response = 400%nat → s' = s) ∧
    (App.status response = 200%nat →
       ∃ detector file,
         handle = Some detector ∧ App.files_file request = Some file ∧
         App.allowed_file (App.filename file) = true ∧
         is_Some (fs s' !! App.upload_path file)).
Proof.
  unfold App.detect.
  destruct handle as [detector|]; [|eexists _, _; split; [done|]; simpl; auto with lia].
  destruct (App.files_file request) as [file|] eqn:Hfile;
    [|eexists _, _; split; [done|]; simpl; auto with lia].
  destruct (decide (App.filename file = ""));
    [eexists _, _; split; [done|]; simpl; auto with lia|].
  destruct (App.allowed_file (App.filename file)) eqn:Hallowed; simpl;
    [|eexists _, _; split; [done|]; simpl; auto with lia].
  rewrite (run_bind_ok _ _ _ () (Machine (fs s) (heap s) ∅ (log s))) by done.
  unfold try_except.
  destruct (App.detect_try detector file (App.form_confidence request) _)
    as [[r|e] s1] eqn:Hrun.
  - apply detect_try_ok in Hrun as [Hstatus Hsaved].
    exists r, s1. split; [done|]. rewrite Hstatus.
    split; [auto|]. split; [done|]. intros _. by exists detector, file.
  - destruct (detect_except_answers e s1) as [s2 ->].
    eexists _, s2. split; [done|]. simpl. split; [auto|]. split; done.
Qed.

(** X11. The view [detect] raises nothing but [RequestEntityTooLarge], and
    raises it exactly when the detector is loaded and Flask refuses the
    body (it is longer than [MAX_CONTENT_LENGTH], or its parts exceed
    werkzeug's limits): the exception comes from the first use of
    [request.files], before the [try] block, and the handler for 413
    answers it. So the route [/detect] always returns a response, whose
    status is 200, 400, 413 or 500; unless it is 413, the response is the
    one the view returned. A 400 and a 413 leave the machine exactly as it
    was. A 200 is given only with the detector loaded, for a body that
    Flask accepts and a file of an allowed name, and the upload is then on
    disk. *)
Theorem detect_always_answers (handle : option Detector.WasteDetector)
    (p : App.post) s :
  ∃ response s',
    App.serve_detect handle p s = (Ok response, s') ∧
    (App.status response = 200%nat ∨ App.status response = 400%nat
     ∨ App.status response = 413%nat ∨ App.status response = 500%nat) ∧
    (App.status response = 413%nat ↔
       is_Some handle ∧
       (App.MAX_CONTENT_LENGTH < App.content_length p
        ∨ App.parts_within_limits p = false)) ∧
    (if decide (App.status response = 413%nat)
     then ∃ e, App.detect_post handle p s = (Raise e, s) ∧
               exn_class e = "RequestEntityTooLarge"
     else App.detect_post handle p s = (Ok response, s')) ∧
    (App.status response = 400%nat ∨ App.status response = 413%nat → s' = s) ∧
    (App.status response = 200%nat →
       ∃ detector file,
         handle = Some detector ∧
         App.content_length p ≤ App.MAX_CONTENT_LENGTH ∧
         App.parts_within_limits p = true ∧
         App.files_file (App.form p) = Some file ∧
         App.allowed_file (App.filename file) = true ∧
         is_Some (fs s' !! App.upload_path file)).
Proof.
  destruct handle as [detector|].
  2:{ exists App.model_not_loaded, s. split; [done|]. simpl.
      split; [auto|]. split; [split; [done | by intros [[??] _]]|].
      split; [done|]. split; [done|]. done. }
  destruct (App.accepted p) eqn:Haccepted.
  - pose proof (proj1 (accepted_spec p) Haccepted) as [Hsize Hparts].
    destruct (detect_answers (Some detector) (App.form p) s)
      as (response & s' & Hrun & Hstatus & Hbad & Hgood).
    rewrite <- (detect_post_accepted detector p s Haccepted) in Hrun.
    exists response, s'. split; [by apply serve_detect_returns|].
    split; [tauto|].
    assert (App.status response ≠ 413%nat) as Hnot
      by (intros Heq; rewrite Heq in Hstatus; by destruct Hstatus as [|[|]]).
    split.
    { split; [done|]. intros [_ [?|Hno]]; [lia | congruence]. }
    split; [by rewrite decide_False|].
    split; [intros [?|?]; [auto | done]|].
    intros Hok. destruct (Hgood Hok) as (d & file & Hd & Hfile & Hallowed & Hsaved).
    by exists d, file.
  - pose proof (detect_post_refused detector p s Haccepted) as Hpost.
    exists (App.Response 413 (App.Failure "File is too large. Maximum size is 16MB")), s.
    split; [unfold App.serve_detect, try_except; by rewrite Hpost|].
    split; [simpl; auto|].
    split.
    { split; [|done]. intros _. split; [by eexists|].
      destruct (decide (App.MAX_CONTENT_LENGTH < App.content_length p)); [by left|].
      right. destruct (App.parts_within_limits p) eqn:Hparts; [|done].
      assert (App.accepted p = true) by (apply accepted_spec; split; [lia | done]).
      congruence. }
    split; [rewrite decide_True by done; by eexists|].
    split; [done|]. simpl. done.
Qed.

End upload_run.

(** ** The camera-frame route, run *)

Section frame_run.
Context `{Env}.
Implicit Types (detector : Detector.WasteDetector) (s : machine) (img : raster).

Lemma predict_and_annotate_keeps_files detector image conf :
  steps keeps_files (Detector.predict_and_annotate detector image conf).
Proof.
  unfold Detector.predict_and_annotate.
  apply steps_bind; [apply _ | | intros source].
  { intros s. unfold read_array. by destruct (heap s !! image). }
  apply steps_bind; [apply _ | by intros s | intros _].
  apply steps_bind; [apply _ | apply steps_lift, _ | intros results].
  apply steps_bind; [apply _ | | intros annotated].
  { apply steps_bind; [apply _ | | by intros img s].
    intros s. unfold read_array. by destruct (heap s !! image). }
  apply steps_bind; [apply _ | | intros detections; apply steps_ret, _].
  apply (steps_weaken (only_draws annotated)).
  { intros s s' Hdraws. split; [apply (draws_fs _ _ _ Hdraws) | apply (draws_locals _ _ _ Hdraws)]. }
  apply steps_for_each; [apply _ | intros boxes].
  apply steps_for_each; [apply _ | intros box]. apply annotate_box_steps.
Qed.

Lemma detect_frame_try_keeps_files detector data :
  steps keeps_files (App.detect_frame_try detector data).
Proof.
  unfold App.detect_frame_try.
  destruct (data ≫= App.json_image) as [image|]; [|apply steps_ret, _].
  apply steps_bind; [apply _ | apply steps_lift, _ | intros image_data].
  apply steps_bind; [apply _ | | intros conf].
  { intros s. by rewrite confidence_of_state. }
  apply steps_bind; [apply _ | by intros s | intros _].
  apply steps_bind; [apply _ | apply steps_lift, _ | intros image_bytes].
  apply steps_bind; [apply _ | by intros s | intros _].
  apply steps_bind; [apply _ | apply steps_lift, _ | intros [pixels|]];
    [|apply steps_ret, _].
  apply steps_bind; [apply _ | by intros s | intros frame].
  apply steps_bind; [apply _ | apply predict_and_annotate_keeps_files|].
  intros [annotated_frame detections].
  apply steps_bind; [apply _ | | intros annotated].
  { intros s. unfold read_array. by destruct (heap s !! annotated_frame). }
  apply steps_bind; [apply _ | by intros s | intros _].
  apply steps_bind; [apply _ | apply steps_lift, _ | intros buffer].
  apply steps_ret, _.
Qed.

(** A [try] block of [/detect_frame] that returns gives a 400 before any
    array is made, or a 200. *)
Lemma detect_frame_try_ok detector data s r s1 :
  App.detect_frame_try detector data s = (Ok r, s1) →
  (App.status r = 400%nat ∧ heap s1 = heap s) ∨ App.status r = 200%nat.
Proof.
  unfold App.detect_frame_try. intros Hrun.
  destruct (data ≫= App.json_image) as [image|].
  2:{ injection Hrun as <- <-. by left. }
  rewrite run_bind in Hrun. unfold lift at 1 in Hrun.
  destruct (App.image_payload image) as [image_data|e]; [|done].
  rewrite run_bind in Hrun.
  pose proof (confidence_of_state (data ≫= App.json_confidence) s) as Hconf.
  destruct (App.confidence_of (data ≫= App.json_confidence) s) as [[conf|e] s0];
    simpl in Hconf; subst s0; [|done].
  rewrite (run_bind_ok _ _ _ ()
             (Machine (fs s) (heap s) (locals s) (log s ++ [B64Decode image_data])))
    in Hrun by done.
  rewrite run_bind in Hrun. unfold lift at 1 in Hrun.
  destruct (b64decode image_data) as [image_bytes|e]; [|done].
  rewrite (run_bind_ok _ _ _ ()
             (Machine (fs s) (heap s) (locals s)
                      ((log s ++ [B64Decode image_data]) ++ [Imdecode])))
    in Hrun by done.
  rewrite run_bind in Hrun. unfold lift at 1 in Hrun.
  destruct (imdecode image_bytes) as [[pixels|]|e]; [| |done].
  2:{ injection Hrun as <- <-. by left. }
  right.
  rewrite run_bind in Hrun.
  destruct (new_array pixels _) as [[frame|e] s2]; [|done].
  rewrite run_bind in Hrun.
  destruct (Detector.detect_frame detector frame conf s2)
    as [[[annotated_frame detections]|e] s3]; [|done].
  rewrite run_bind in Hrun.
  destruct (read_array annotated_frame s3) as [[annotated|e] s4]; [|done].
  rewrite run_bind in Hrun.
  destruct (emit Imencode s4) as [[[]|e] s5]; [|done].
  rewrite run_bind in Hrun. unfold lift at 1 in Hrun.
  destruct (imencode ".jpg" annotated) as [buffer|e]; [|done].
  by injection Hrun as <- <-.
Qed.

(** X12. The route [/detect_frame] never raises: it always returns a
    response, whose status is 200, 400 or 500. Whatever the outcome it
    leaves the files as they are (the camera flow works in memory); a 400 is
    given before any array is made; and with the handle unset nothing at
    all is done. *)
Theorem detect_frame_always_answers (handle : option Detector.WasteDetector)
    (data : option App.frame_json) s :
  ∃ response s',
    App.detect_frame handle data s = (Ok response, s') ∧
    (App.status response = 200%nat ∨ App.status response = 400%nat
     ∨ App.status response = 500%nat) ∧
    fs s' = fs s ∧
    (App.status response = 400%nat → heap s' = heap s) ∧
    (handle = None → s' = s).
Proof.
  unfold App.detect_frame.
  destruct handle as [detector|]; [|by eexists _, _; split; [done|]; simpl; auto].
  unfold try_except.
  pose proof (detect_frame_try_keeps_files detector data s) as [Hfs _].
  destruct (App.detect_frame_try detector data s) as [[r|e] s1] eqn:Hrun; simpl in Hfs.
  - exists r, s1. split; [done|].
    apply detect_frame_try_ok in Hrun as [[Hstatus Hheap]|Hstatus]; rewrite Hstatus.
    + split; [auto|]. split; [done|]. split; done.
    + split; [auto|]. split; [done|]. split; done.
  - eexists _, s1. split; [done|]. simpl. split; [auto|]. split; [done|]. split; done.
Qed.

(** X13. The successful camera frame. For a body whose image payload is
    valid base64 of an image, whose confidence converts (or is absent),
    whose boxes are all of known classes and whose annotated frame encodes:
    the answer is 200 with the data URL of the encoded annotated frame, one
    detection per box, their statistics and the threshold; the calls made
    are the two decoders, the inference and the encoder, in this order; and
    the decoded frame is kept as it was decoded. *)
Theorem detect_frame_success detector body image payload image_bytes conf img results
    buffer s :
  App.json_image body = Some image →
  App.image_payload image = Ok payload →
  match App.json_confidence body with
  | None => Ok default_confidence
  | Some text => float_of_str text
  end = Ok conf →
  b64decode payload = Ok image_bytes →
  imdecode image_bytes = Ok (Some img) →
  predict img conf = Ok results →
  Forall (λ box, is_Some (Detector.class_names detector !! int_of_Q (box_cls box)))
         (concat results) →
  imencode ".jpg" (Rendering.annotate_all detector (concat results) img).2 = Ok buffer →
  ∃ detections s',
    App.detect_frame (Some detector) (Some body) s =
      (Ok (App.Response 200
             (App.FrameResult ("data:image/jpeg;base64," +:+ b64encode buffer)
                              detections (Detector.get_statistics detections) conf)),
       s') ∧
    length detections = length (concat results) ∧
    log s' = log s ++ [B64Decode payload; Imdecode; Predict; Imencode] ∧
    fs s' = fs s ∧
    heap s' !! fresh (dom (heap s)) = Some img.
Proof.
  intros Himage Hpayload Hconf Hbytes Hdecode Hpredict Hknown Hencode.
  unfold App.detect_frame, App.detect_frame_try. simpl. rewrite Himage.
  rewrite (try_except_bind_ok _ _ _ s payload s) by (unfold lift; by rewrite Hpayload).
  rewrite (try_except_bind_ok _ _ _ s conf s) by (by rewrite run_confidence_of, Hconf).
  set (s1 := Machine (fs s) (heap s) (locals s) (log s ++ [B64Decode payload])).
  rewrite (try_except_bind_ok _ _ _ s () s1) by done.
  rewrite (try_except_bind_ok _ _ _ s1 image_bytes s1) by (unfold lift; by rewrite Hbytes).
  set (s2 := Machine (fs s) (heap s) (locals s)
                     ((log s ++ [B64Decode payload]) ++ [Imdecode])).
  rewrite (try_except_bind_ok _ _ _ s1 () s2) by done.
  rewrite (try_except_bind_ok _ _ _ s2 (Some img) s2) by (unfold lift; by rewrite Hdecode).
  set (frame := fresh (dom (heap s))).
  set (s3 := Machine (fs s) (<[frame := img]> (heap s)) (locals s)
                     ((log s ++ [B64Decode payload]) ++ [Imdecode])).
  rewrite (try_except_bind_ok _ _ _ s2 frame s3) by done.
  destruct (annotate_all_known detector (concat results) img Hknown)
    as (detections & Hdetections & Hall).
  set (annotated := fresh (dom (heap s3))).
  set (rendered := (Rendering.annotate_all detector (concat results) img).2) in *.
  set (s4 := Machine (fs s3) (<[annotated := rendered]> (heap s3)) (locals s3)
                     (log s3 ++ [Predict])).
  rewrite (try_except_bind_ok _ _ _ s3 (annotated, detections) s4).
  2:{ unfold Detector.detect_frame.
      rewrite (predict_and_annotate_run _ _ _ _ img results);
        [|simpl; apply lookup_insert_eq|done].
      by rewrite Hdetections. }
  rewrite (try_except_bind_ok _ _ _ s4 rendered s4)
    by (unfold read_array; simpl; by rewrite lookup_insert_eq).
  set (s5 := Machine (fs s4) (heap s4) (locals s4) (log s4 ++ [Imencode])).
  rewrite (try_except_bind_ok _ _ _ s4 () s5) by done.
  rewrite (try_except_bind_ok _ _ _ s5 buffer s5) by (unfold lift; by rewrite Hencode).
  exists detections, s5. split; [done|].
  split; [symmetry; by eapply Forall2_length|].
  split; [simpl; by rewrite <- !app_assoc|]. split; [done|].
  simpl. rewrite lookup_insert_ne, lookup_insert_eq; [done|].
  subst annotated. intros Heq. pose proof (is_fresh (dom (heap s3))) as Hfresh.
  rewrite Heq in Hfresh. apply Hfresh, elem_of_dom. simpl.
  rewrite lookup_insert_eq. by eexists.
Qed.

End frame_run.

(** ** Start-up, file names and payloads *)

Section startup_and_names.
Context `{Env}.


Lemma ascii_lower_dot (c : ascii) :
  bool_decide (ascii_lower c = "."%char) = bool_decide (c = "."%char).
Proof. by destruct c as [[] [] [] [] [] [] [] []]. Qed.

Lemma ascii_lower_idemp (c : ascii) : ascii_lower (ascii_lower c) = ascii_lower c.
Proof. by destruct c as [[] [] [] [] [] [] [] []]. Qed.

Lemma str_lower_idemp (text : string) : str_lower (str_lower text) = str_lower text.
Proof.
  induction text as [|c text IH]; [done|]. simpl. by rewrite IH, ascii_lower_idemp.
Qed.

Lemma after_last_lower (text : string) :
  after_last "." (str_lower text) = str_lower <$> after_last "." text.
Proof.
  induction text as [|c text IH]; [done|]. simpl. rewrite IH.
  destruct (after_last "." text); simpl; [done|].
  pose proof (ascii_lower_dot c) as Hdot.
  destruct (decide (ascii_lower c = "."%char)), (decide (c = "."%char)); try done.
  - by rewrite bool_decide_eq_true_2, bool_decide_eq_false_2 in Hdot.
  - by rewrite bool_decide_eq_false_2, bool_decide_eq_true_2 in Hdot.
Qed.

Lemma allowed_file_after_last (name : string) :
  App.allowed_file name =
    match after_last "." name with
    | Some ext => bool_decide (str_lower ext ∈ App.ALLOWED_EXTENSIONS)
    | None => false
    end.
Proof.
  unfold App.allowed_file, str_rsplit1. rewrite after_last_contains.
  pose proof (before_last_is_Some "." name) as Hb.
  destruct (after_last "." name) as [ext|]; [|done].
  destruct (before_last "." name) as [stem|]; [done|].
  destruct (proj2 Hb); [by eexists | done].
Qed.

(** X15. [allowed_file] decides on the text after the last dot alone, read
    in lower case: a name is accepted exactly when it ends in a dot followed
    by a dot-free text that is, in lower case, one of the allowed
    extensions. So the case of the letters does not matter, a name without
    a dot is refused, and of several extensions only the last counts. *)
Theorem allowed_file_decides_on_last_extension (name : string) :
  (App.allowed_file name = true ↔
     ∃ stem ext, name = stem +:+ String "." ext ∧ str_contains "." ext = false ∧
                 str_lower ext ∈ App.ALLOWED_EXTENSIONS) ∧
  App.allowed_file (str_lower name) = App.allowed_file name ∧
  (str_contains "." name = false → App.allowed_file name = false).
Proof.
  split; [apply allowed_file_extension|]. split.
  - rewrite !allowed_file_after_last, after_last_lower.
    destruct (after_last "." name) as [ext|]; simpl; [|done].
    by rewrite str_lower_idemp.
  - intros Hdot. unfold App.allowed_file. by rewrite Hdot.
Qed.

Lemma str_split_pieces sep (text : string) :
  Forall (λ piece, str_contains sep piece = false) (str_split sep text).
Proof.
  induction text as [|c text IH]; simpl.
  - by constructor.
  - destruct (decide (c = sep)) as [->|Hne].
    + by constructor.
    + destruct (str_split sep text) as [|piece pieces].
      * constructor; [|done]. simpl. by rewrite decide_False.
      * inversion IH as [|?? Hpiece Hpieces]; subst.
        constructor; [|done]. simpl. by rewrite decide_False.
Qed.

Lemma str_split_nonempty sep (text : string) : str_split sep text ≠ [].
Proof.
  destruct text as [|c text]; simpl; [done|].
  destruct (decide (c = sep)); [done|]. by destruct (str_split sep text).
Qed.

Lemma str_split_second sep (text : string) :
  str_contains sep text = true → is_Some (str_split sep text !! 1%nat).
Proof.
  induction text as [|c text IH]; simpl; [done|].
  destruct (decide (c = sep)) as [->|Hne].
  - intros _. pose proof (str_split_nonempty sep text).
    destruct (str_split sep text) as [|piece pieces]; [done|]. by eexists.
  - intros Hsep. specialize (IH Hsep).
    destruct (str_split sep text) as [|piece pieces]; [by destruct IH|]. done.
Qed.

(** X16. Taking the payload out of the image string never fails (the
    index 1 is always there when the string has a comma), and what it gives
    has no comma left; a string without a comma is passed on as it is. *)
Theorem image_payload_is_total (image : string) :
  ∃ data,
    App.image_payload image = Ok data ∧
    str_contains "," data = false ∧
    (str_contains "," image = false → data = image).
Proof.
  unfold App.image_payload, App.py_index.
  destruct (str_contains "," image) eqn:Hcomma.
  - destruct (str_split_second "," image Hcomma) as [data Hdata].
    rewrite Hdata. exists data. split; [done|]. split; [|done].
    pose proof (str_split_pieces "," image) as Hpieces.
    rewrite Forall_lookup in Hpieces. by apply (Hpieces 1%nat).
  - by exists image.
Qed.

Lemma b64_char_not_comma (v : N) : b64_char v ≠ ","%char.
Proof.
  unfold b64_char. intros Hv.
  destruct (v <? 26)%N eqn:H26.
  { apply N.ltb_lt in H26. apply (f_equal N_of_ascii) in Hv.
    rewrite N_ascii_embedding in Hv by lia. simpl in Hv. lia. }
  apply N.ltb_ge in H26.
  destruct (v <? 52)%N eqn:H52.
  { apply N.ltb_lt in H52. apply (f_equal N_of_ascii) in Hv.
    rewrite N_ascii_embedding in Hv by lia. simpl in Hv. lia. }
  apply N.ltb_ge in H52.
  destruct (v <? 62)%N eqn:H62.
  { apply N.ltb_lt in H62. apply (f_equal N_of_ascii) in Hv.
    rewrite N_ascii_embedding in Hv by lia. simpl in Hv. lia. }
  by destruct (v =? 62)%N.
Qed.

Lemma b64encode_no_comma (b : bytes) : str_contains "," (b64encode b) = false.
Proof.
  assert (∀ n b, (length b ≤ n)%nat → str_contains "," (b64encode b) = false) as Hall.
  { clear b. intros n. induction n as [|n IH]; intros b Hlen.
    - destruct b; [done | simpl in Hlen; lia].
    - destruct b as [|x [|y [|z r]]]; simpl; try done;
        rewrite ?decide_False by apply b64_char_not_comma; try done.
      apply IH. simpl in Hlen. lia. }
  by apply (Hall (length b)).
Qed.

(** X17. The [annotated_image] of a successful [/detect_frame] answer can
    be sent back as the [image] of a request: its data-URL prefix is cut at
    the comma, and the payload taken out of it is exactly the base64 text
    that was put in. *)
Theorem annotated_image_payload (buffer : bytes) :
  App.image_payload ("data:image/jpeg;base64," +:+ b64encode buffer)
    = Ok (b64encode buffer).
Proof.
  change ("data:image/jpeg;base64," +:+ b64encode buffer)
    with ("data:image/jpeg;base64" +:+ String "," (b64encode buffer)).
  apply image_payload_one_comma; [by vm_compute | apply b64encode_no_comma].
Qed.

End startup_and_names.

(** ** Failures that leave no trace *)

Section no_trace.
Context `{Env}.
Implicit Types (detector : Detector.WasteDetector) (s : machine)
  (file : App.FileStorage) (request : App.upload_request).

(** The clean-up, when removing the upload works and the output file is
    not there: the upload is removed and nothing else changes on disk. *)
Lemma cleanup_removes_upload s path content :
  locals s !! "filepath" = Some path →
  fs s !! path = Some content →
  remove_error path = None →
  (∀ out, locals s !! "output_path" = Some out → delete path (fs s) !! out = None) →
  ∃ s2, try_except App.remove_files (λ _, mret ()) s = (Ok (), s2) ∧
        fs s2 = delete path (fs s).
Proof.
  intros Hpath Hcontent Hremove Hout. unfold App.remove_files.
  rewrite (try_except_bind_ok _ _ _ s path s) by by apply run_var.
  set (s1 := Machine (fs s) (heap s) (locals s) (log s ++ [PathExists path])).
  rewrite (try_except_bind_ok _ _ _ s true s1).
  2:{ rewrite run_path_exists, Hcontent. by rewrite bool_decide_eq_true_2. }
  set (s2 := Machine (delete path (fs s)) (heap s) (locals s)
                     ((log s ++ [PathExists path]) ++ [OsRemove path])).
  rewrite (try_except_bind_ok _ _ _ s1 () s2)
    by (rewrite run_os_remove, Hremove; [done | by eexists]).
  destruct (locals s !! "output_path") as [out|] eqn:Hbound.
  2:{ destruct (run_var_unbound "output_path" s2 Hbound) as [e2 Hvar].
      rewrite (try_except_bind_raise _ _ _ s2 e2 _ Hvar). by eexists. }
  rewrite (try_except_bind_ok _ _ _ s2 out s2) by by apply run_var.
  set (s3 := Machine (fs s2) (heap s2) (locals s2) (log s2 ++ [PathExists out])).
  rewrite (try_except_bind_ok _ _ _ s2 false s3).
  2:{ rewrite run_path_exists. simpl. rewrite (Hout out eq_refl).
      rewrite bool_decide_eq_false_2; [done | by intros [??]]. }
  by eexists.
Qed.

(** X18. A failed upload leaves no file behind. When the [try] block of
    [/detect] raises after the upload has been saved, removing the upload
    works, and neither of the two paths of the request was taken before
    it, the files after the 500 answer are the files before the request. *)
Theorem failed_upload_leaves_no_file detector request file s e s1 :
  App.files_file request = Some file →
  App.filename file ≠ "" →
  App.allowed_file (App.filename file) = true →
  save_error (App.upload_path file) = None →
  App.detect_try detector file (App.form_confidence request)
    (Machine (fs s) (heap s) ∅ (log s)) = (Raise e, s1) →
  remove_error (App.upload_path file) = None →
  fs s !! App.upload_path file = None →
  fs s !! App.detected_path file = None →
  ∃ s',
    App.detect (Some detector) request s =
      (Ok (App.Response 500 (App.Failure ("Detection failed: " +:+ exn_str e))), s') ∧
    fs s' = fs s.
Proof.
  intros Hfile Hname Hallowed Hsave Hraise Hremove Hupload Houtput.
  destruct (detect_try_raises _ _ _ _ _ _ _ _ Hsave Hraise)
    as (Hfs & Hpath & Hout & _).
  destruct (cleanup_removes_upload s1 (App.upload_path file) (App.content file))
    as (s2 & Hclean & Hfs2); [done | by rewrite Hfs, lookup_insert_eq | done | |].
  { intros out Hbound. destruct Hout as [Hnone|Hsome]; [congruence|].
    assert (out = App.detected_path file) as -> by congruence.
    rewrite Hfs, delete_insert_eq.
    rewrite lookup_delete_ne by apply upload_path_ne_detected_path. done. }
  exists s2. split.
  - rewrite (detect_valid _ _ file) by done.
    unfold try_except at 1. rewrite Hraise. unfold App.detect_except.
    by rewrite (run_bind_ok _ _ _ () s2 Hclean).
  - rewrite Hfs2, Hfs, delete_insert_eq. by apply delete_id.
Qed.

(** X19. [detect_image] on a path that holds no file, or a file that is
    not an image, raises [ValueError] with the path in its message; the
    model is not asked and no array is made. *)
Theorem detect_image_unreadable detector (image_path : string) (conf : float) s :
  fs s !! image_path ≫= imread_decode = None →
  Detector.detect_image detector image_path conf s =
    (Raise (Exn "ValueError" ("Could not read image at " +:+ image_path)),
     Machine (fs s) (heap s) (locals s) (log s ++ [Imread image_path])).
Proof.
  intros Hnone. unfold Detector.detect_image.
  set (s1 := Machine (fs s) (heap s) (locals s) (log s ++ [Imread image_path])).
  rewrite (run_bind_ok _ _ _ None s1); [done|].
  unfold imread. rewrite (run_bind_ok _ _ _ () s1) by done.
  rewrite (run_bind_ok _ _ _ (fs s !! image_path) s1) by done.
  by rewrite Hnone.
Qed.

End no_trace.

(** ** The further properties on the sample environment *)

(** X1 on a plastic and a paper detection, in either order. *)
Lemma get_statistics_permutation_swap :
  Detector.get_statistics
    [Sample.detection "plastic" (9 # 10) (1, 1, 4, 3);
     Sample.detection "paper" (1 # 2) (0, 0, 2, 2)]
  = Detector.get_statistics
      [Sample.detection "paper" (1 # 2) (0, 0, 2, 2);
       Sample.detection "plastic" (9 # 10) (1, 1, 4, 3)].
Proof.
  apply (get_statistics_permutation (H := Sample.plain)). apply perm_swap.
Defined.

(** X4 on the camera frame: one box, one detection. *)
Lemma detect_frame_detections_follow_boxes_camera :
  ∃ annotated detections s',
    Detector.detect_frame (H := Sample.plain) Sample.detector Sample.camera_frame (1 # 4)
      Sample.camera_machine = (Ok (annotated, detections), s') ∧
    length detections = 1%nat.
Proof.
  destruct (detect_frame_detections_follow_boxes (H := Sample.plain) Sample.detector
              Sample.camera_frame (1 # 4) Sample.camera_machine Sample.image
              [[Sample.box]])
    as (annotated & detections & s' & Hrun & Hall).
  - vm_compute. reflexivity.
  - reflexivity.
  - repeat constructor. vm_compute. eexists. reflexivity.
  - exists annotated, detections, s'. split; [exact Hrun|].
    apply Forall2_length in Hall. symmetry. exact Hall.
Defined.

(** X5 on a detector that knows no class. *)
Lemma detect_frame_unknown_class_raises_blind :
  ∃ s',
    Detector.detect_frame (H := Sample.plain) Sample.blind_detector Sample.camera_frame
      (1 # 4) Sample.camera_machine = (Raise (Exn "KeyError" "0"), s') ∧
    heap s' !! Sample.camera_frame = Some Sample.image.
Proof.
  apply (detect_frame_unknown_class_raises (H := Sample.plain) Sample.blind_detector
           Sample.camera_frame (1 # 4) Sample.camera_machine Sample.image
           [[Sample.box]] [] Sample.box []).
  - vm_compute. reflexivity.
  - reflexivity.
  - reflexivity.
  - constructor.
  - reflexivity.
Defined.

(** X6 on a model that reports two results without boxes. *)
Lemma detect_frame_without_boxes_camera :
  ∃ annotated s',
    Detector.detect_frame (H := Sample.env_of [[]; []]) Sample.detector
      Sample.camera_frame (1 # 4) Sample.camera_machine = (Ok (annotated, []), s') ∧
    annotated ≠ Sample.camera_frame ∧
    heap s' !! annotated = Some Sample.image.
Proof.
  apply (detect_frame_without_boxes (H := Sample.env_of [[]; []]) Sample.detector
           Sample.camera_frame (1 # 4) Sample.camera_machine Sample.image [[]; []]).
  - vm_compute. reflexivity.
  - reflexivity.
  - reflexivity.
Defined.

(** X7 on the sample box: the corner of the outline takes the colour of
    plastic. *)
Lemma annotate_box_layers_corner :
  ∃ d s' out,
    Detector.annotate_box (H := Sample.plain) Sample.detector Sample.camera_frame
      Sample.box Sample.camera_machine = (Ok d, s') ∧
    heap s' !! Sample.camera_frame = Some out ∧
    pixel_at out 1 1 = Some (0, 255, 255).
Proof.
  destruct (annotate_box_layers (H := Sample.plain) Sample.detector Sample.camera_frame
              Sample.box Sample.camera_machine Sample.image "plastic")
    as (d & s' & out & Hrun & Hout & Hpixels).
  - vm_compute. reflexivity.
  - vm_compute. reflexivity.
  - exists d, s', out. split; [exact Hrun|]. split; [exact Hout|].
    rewrite (Hpixels 1%nat 1%nat). vm_compute. reflexivity.
Defined.

(** X8 on the sample box: the pixel in the corner of the image lies outside
    of everything drawn, and keeps its value. *)
Lemma detect_frame_keeps_pixels_outside_corner :
  ∃ annotated detections s' out,
    Detector.detect_frame (H := Sample.plain) Sample.detector Sample.camera_frame (1 # 4)
      Sample.camera_machine = (Ok (annotated, detections), s') ∧
    heap s' !! annotated = Some out ∧
    pixel_at out 0 0 = Some (0, 0, 0).
Proof.
  destruct (predict_and_annotate_returns (H := Sample.plain) Sample.detector
              Sample.camera_frame (1 # 4) Sample.camera_machine Sample.image
              [[Sample.box]])
    as (annotated & detections & s' & Hrun & _).
  { vm_compute. reflexivity. }
  { reflexivity. }
  { repeat constructor. vm_compute. eexists. reflexivity. }
  destruct (detect_frame_keeps_pixels_outside (H := Sample.plain) Sample.detector
              Sample.camera_frame (1 # 4) Sample.camera_machine Sample.image
              [[Sample.box]] 0%nat 0%nat)
    with (annotated := annotated) (detections := detections) (s' := s')
    as (out & Hout & Hpixel).
  - vm_compute. reflexivity.
  - reflexivity.
  - intros box class_name Hbox Hname. apply list_elem_of_singleton in Hbox. subst box.
    vm_compute in Hname. injection Hname as <-.
    split; [|split].
    + apply (bool_decide_unpack _). vm_compute. reflexivity.
    + unfold Rendering.background_points. simpl.
      rewrite elem_of_filled_points. unfold in_rect. simpl.
      change (int_of_Q (3 # 2)) with 1. change (int_of_Q 1) with 1. lia.
    + unfold Rendering.glyph_points. simpl. intros Hin.
      apply list_elem_of_singleton in Hin. discriminate Hin.
  - exact Hrun.
  - exists annotated, detections, s', out. split; [exact Hrun|]. split; [exact Hout|].
    rewrite Hpixel. reflexivity.
Defined.

(** X9 on the upload of [a.jpg]. *)
Lemma detect_success_upload :
  ∃ detections s',
    App.detect (H := Sample.plain) (Some Sample.detector)
      {| App.files_file := Some (Sample.upload "a.jpg"); App.form_confidence := None |}
      Sample.empty_machine
    = (Ok (App.Response 200
             (App.UploadResult (H := Sample.plain)
                ("/" +:+ App.upload_path (H := Sample.plain) (Sample.upload "a.jpg"))
                ("/" +:+ App.detected_path (H := Sample.plain) (Sample.upload "a.jpg"))
                detections (Detector.get_statistics detections) (1 # 4))), s') ∧
    length detections = 1%nat ∧
    fs s' !! App.upload_path (H := Sample.plain) (Sample.upload "a.jpg")
      = Some Sample.jpeg_bytes.
Proof.
  destruct (detect_success (H := Sample.plain) Sample.detector
              {| App.files_file := Some (Sample.upload "a.jpg");
                 App.form_confidence := None |}
              (Sample.upload "a.jpg") Sample.empty_machine (1 # 4) Sample.image
              [[Sample.box]])
    as (detections & s' & Hrun & Hlength & _ & Hupload & _).
  - reflexivity.
  - discriminate.
  - vm_compute. reflexivity.
  - reflexivity.
  - reflexivity.
  - reflexivity.
  - reflexivity.
  - repeat constructor. vm_compute. eexists. reflexivity.
  - intros e. discriminate.
  - exists detections, s'. split; [exact Hrun|]. split; [exact Hlength | exact Hupload].
Defined.

(** X10 on an [imwrite] that returns [False]. *)
Lemma detect_answers_200_without_output_file_upload :
  ∃ original detections statistics s',
    App.detect (H := Sample.env false NotWritten) (Some Sample.detector)
      {| App.files_file := Some (Sample.upload "a.jpg"); App.form_confidence := None |}
      Sample.empty_machine
    = (Ok (App.Response 200
             (App.UploadResult (H := Sample.env false NotWritten) original
                ("/" +:+ App.detected_path (H := Sample.env false NotWritten)
                           (Sample.upload "a.jpg"))
                detections statistics (1 # 4))), s') ∧
    fs s' !! App.detected_path (H := Sample.env false NotWritten) (Sample.upload "a.jpg")
      = None.
Proof.
  apply (detect_answers_200_without_output_file (H := Sample.env false NotWritten)
           Sample.detector
           {| App.files_file := Some (Sample.upload "a.jpg");
              App.form_confidence := None |}
           (Sample.upload "a.jpg") Sample.empty_machine (1 # 4) Sample.image
           [[Sample.box]]).
  - reflexivity.
  - discriminate.
  - vm_compute. reflexivity.
  - reflexivity.
  - reflexivity.
  - reflexivity.
  - reflexivity.
  - repeat constructor. vm_compute. eexists. reflexivity.
  - reflexivity.
  - reflexivity.
Defined.

(** X13 on a data URL with four bytes of payload. *)
Lemma detect_frame_success_data_url :
  ∃ detections s',
    App.detect_frame (H := Sample.plain) (Some Sample.detector)
      (Some {| App.json_image := Some "data:,/9j/2Q=="; App.json_confidence := Some "0.5" |})
      Sample.empty_machine
    = (Ok (App.Response 200
             (App.FrameResult (H := Sample.plain)
                ("data:image/jpeg;base64," +:+ b64encode Sample.jpeg_bytes)
                detections (Detector.get_statistics detections) (1 # 2))), s') ∧
    length detections = 1%nat ∧
    log s' = [B64Decode "/9j/2Q=="; Imdecode; Predict; Imencode].
Proof.
  destruct (detect_frame_success (H := Sample.plain) Sample.detector
              {| App.json_image := Some "data:,/9j/2Q=="; App.json_confidence := Some "0.5" |}
              "data:,/9j/2Q==" "/9j/2Q==" Sample.jpeg_bytes (1 # 2) Sample.image
              [[Sample.box]] Sample.jpeg_bytes Sample.empty_machine)
    as (detections & s' & Hrun & Hlength & Hlog & _).
  - reflexivity.
  - vm_compute. reflexivity.
  - vm_compute. reflexivity.
  - vm_compute. reflexivity.
  - reflexivity.
  - reflexivity.
  - repeat constructor. vm_compute. eexists. reflexivity.
  - reflexivity.
  - exists detections, s'. split; [exact Hrun|]. split; [exact Hlength | exact Hlog].
Defined.

(** X18 on an upload that is not an image. *)
Lemma failed_upload_leaves_no_file_unreadable :
  ∃ s',
    App.detect (H := Sample.plain) (Some Sample.detector)
      {| App.files_file := Some (Sample.empty_upload "empty.jpg");
         App.form_confidence := None |} Sample.empty_machine
    = (Ok (App.Response 500
             (App.Failure
                "Detection failed: Could not read image at static/uploads/1700000000000_empty.jpg")),
       s') ∧
    fs s' = ∅.
Proof.
  pose (request := {| App.files_file := Some (Sample.empty_upload "empty.jpg");
                      App.form_confidence := None |}).
  pose (e := Exn "ValueError"
               "Could not read image at static/uploads/1700000000000_empty.jpg").
  pose (run := App.detect_try (H := Sample.plain) Sample.detector
                 (Sample.empty_upload "empty.jpg") None (Machine ∅ ∅ ∅ [])).
  apply (failed_upload_leaves_no_file (H := Sample.plain) Sample.detector request
           (Sample.empty_upload "empty.jpg") Sample.empty_machine e run.2).
  - reflexivity.
  - discriminate.
  - vm_compute. reflexivity.
  - reflexivity.
  - vm_compute. reflexivity.
  - reflexivity.
  - reflexivity.
  - reflexivity.
Defined.

(** X19 on a path that holds no file. *)
Lemma detect_image_unreadable_missing :
  Detector.detect_image (H := Sample.plain) Sample.detector "static/uploads/missing.jpg"
    (1 # 4) Sample.empty_machine
  = (Raise (Exn "ValueError" "Could not read image at static/uploads/missing.jpg"),
     Machine ∅ ∅ ∅ [Imread "static/uploads/missing.jpg"]).
Proof.
  apply (detect_image_unreadable (H := Sample.plain) Sample.detector
           "static/uploads/missing.jpg" (1 # 4) Sample.empty_machine).
  reflexivity.
Defined.
